(** * Chain organization core: header_organizer and organize_transaction

    A shallow embedding of the two organizers of libbitcoin-blockchain
    ([src/organizers/header_organizer.cpp] and the organize_transaction
    translation unit) and the proofs of their pipeline properties.

    The organizers are written in continuation-passing style in the source
    (bound callbacks); the embedding keeps that shape: every member function
    that takes a [result_handler] takes one here, and a call of the handler is
    an application of it.  State that the member functions mutate (the
    prioritized mutex, the stopped flag, the pools, the store, the promise) is
    threaded explicitly.  Each call of a collaborator is also appended to a
    call log, so that "is never invoked" is a property of the log. *)

From Stdlib Require Import ZArith NArith Bool List Lia.
From Stdlib Require Import SpecFloat QArith Qround.
From stdpp Require Import base option list gmap.

Import ListNotations.
Local Open Scope N_scope.

(** ** Result codes (bc::code / bc::error) *)

(** The named codes are the ones the organizers produce themselves; every
    other code of the library (validator rule codes, store failures) is
    [other_error n].  [error::success] is the only code that converts to
    [false]. *)
Inductive code : Type :=
| success
| duplicate_block
| insufficient_work
| service_stopped
| operation_failed
| duplicate_transaction
| insufficient_fee
| dusty_transaction
| other_error (n : positive).

#[global] Instance code_eq_dec : EqDecision code.
Proof. solve_decision. Defined.

(** [if (ec)] in the source. *)
Definition is_error (ec : code) : bool :=
  match ec with success => false | _ => true end.

(** ** The prioritized mutex, as seen by the organizing thread *)

Inductive mutex_state : Type := unlocked | locked_high | locked_low.

(** ** start() / stop() called by other threads *)

(** The stopped flag is a [std::atomic<bool>] written by [start] and [stop],
    which other threads call while a pipeline waits for the mutex or for a
    validator.  Such calls are given to the model as a list per suspension
    point. *)
Inductive control : Type := ctl_start | ctl_stop.

(** The value of a stopped flag after such calls. *)
Definition flag_after (cs : list control) (b : bool) : bool :=
  fold_left (fun _ c => match c with ctl_start => false | ctl_stop => true end)
    cs b.

(** ** Data *)

(** config::checkpoint: the fork point of a branch. *)
Record checkpoint : Type := { cp_hash : N; cp_height : N }.

(** chain::header, identified by its hash. *)
Record header : Type := {
  hash : N;
  previous_block_hash : N;
  merkle_root : N;
  timestamp : N;
  bits : N;
  version : N;
  nonce : N
}.

(** Modelled from the spec: header_branch (pools/header_branch.hpp is not
    among the sources).  An ordered header sequence above an indexed fork
    point, with the cumulative work computed once at construction. *)
Record header_branch : Type := {
  fork_point : checkpoint;
  headers : list header;
  work : N
}.

Definition empty (b : header_branch) : bool :=
  match headers b with [] => true | _ => false end.

Definition height (b : header_branch) : N := cp_height (fork_point b).

(** [top()] is a null pointer on an empty branch. *)
Definition top (b : header_branch) : option header := last (headers b).

Definition top_height (b : header_branch) : N :=
  height b + N.of_nat (length (headers b)).

(** Modelled from the spec: header_pool (pools/header_pool.hpp is not among
    the sources).  A mapping from header hash to the pooled header and its
    height; [add] is a no-op when the hash is already present. *)
Abbreviation pooled_header := (header * N)%type.

Definition header_pool_add (h : header) (ht : N)
    (p : gmap N pooled_header) : gmap N pooled_header :=
  match p !! hash h with
  | Some _ => p
  | None => <[hash h := (h, ht)]> p
  end.

Definition header_pool_exists (p : gmap N pooled_header) (h : header) : bool :=
  bool_decide (is_Some (p !! hash h)).

(** chain::transaction, by the values its accessors return. *)
Record transaction : Type := {
  tx_hash : N;
  serialized_size : N;
  signature_operations : N;
  fees : N;
  output_values : list N
}.

(** Modelled from the spec: transaction::is_dusty (libbitcoin-system is not
    among the sources): some output is below the configured minimum. *)
Definition is_dusty (tx : transaction) (minimum_output_satoshis : N) : bool :=
  existsb (fun v => v <? minimum_output_satoshis) (output_values tx).

(** ** Collaborator interfaces *)

(** fast_chain: the part of the store interface the organizers consume.
    [get_work] returns [bool] and fills an out parameter in the source. *)
Class FastChain (chain : Type) : Type := {
  get_work : chain -> N -> N -> bool -> option N;
  reorganize : chain -> checkpoint -> list header -> code * chain;
  store : chain -> transaction -> code * chain
}.

(** validate_header.  [check] is independent of chain state; [accept] reads
    the store and reports one code to its handler. *)
Class HeaderValidator (chain : Type) : Type := {
  header_check : header -> code;
  header_accept : chain -> header_branch -> code
}.

(** header_pool::get_branch reads the pool and the store. *)
Class BranchBuilder (chain : Type) : Type := {
  get_branch : gmap N pooled_header -> chain -> header -> header_branch
}.

(** validate_transaction. *)
Class TransactionValidator (chain : Type) : Type := {
  tx_check : transaction -> N -> code;
  tx_accept : chain -> transaction -> code;
  tx_connect : chain -> transaction -> code
}.

(** transaction_pool (pools/transaction_pool.hpp is not among the sources):
    the organizer only asks it whether a transaction exists in it. *)
Class TransactionPool (pool : Type) : Type := {
  transaction_pool_exists : pool -> transaction -> bool
}.

(** ** header_organizer *)

Module HeaderOrganizer.

Inductive event : Type :=
| ev_check (h : header)
| ev_lock_high_priority
| ev_unlock_high_priority
| ev_get_branch (h : header)
| ev_accept (b : header_branch)
| ev_get_work (overcome above_height : N)
| ev_pool_add (h : option header) (ht : N)
| ev_reorganize (fork : checkpoint) (hs : list header)
| ev_log_fatal (ec : code)
| ev_handler (ec : code).

(** What other threads do at the two points where the pipeline waits. *)
Record schedule : Type := {
  while_locking : list control;
  while_accepting : list control
}.

Section Organizer.

Context {chain : Type} `{!FastChain chain, !HeaderValidator chain,
  !BranchBuilder chain}.

(** The members of the class and the call log. *)
Record state : Type := {
  fast_chain_ : chain;
  mutex_ : mutex_state;
  stopped_ : bool;
  pool_ : gmap N pooled_header;
  validator_stopped : bool;
  log : list event
}.

Definition set_chain (c : chain) (w : state) : state :=
  {| fast_chain_ := c; mutex_ := mutex_ w; stopped_ := stopped_ w;
     pool_ := pool_ w; validator_stopped := validator_stopped w;
     log := log w |}.

Definition set_mutex (m : mutex_state) (w : state) : state :=
  {| fast_chain_ := fast_chain_ w; mutex_ := m; stopped_ := stopped_ w;
     pool_ := pool_ w; validator_stopped := validator_stopped w;
     log := log w |}.

Definition set_pool (p : gmap N pooled_header) (w : state) : state :=
  {| fast_chain_ := fast_chain_ w; mutex_ := mutex_ w; stopped_ := stopped_ w;
     pool_ := p; validator_stopped := validator_stopped w; log := log w |}.

Definition emit (e : event) (w : state) : state :=
  {| fast_chain_ := fast_chain_ w; mutex_ := mutex_ w; stopped_ := stopped_ w;
     pool_ := pool_ w; validator_stopped := validator_stopped w;
     log := log w ++ [e] |}.

(** A member function run from a state; [R] is what the caller's handler
    returns to.  The handler's type is [handle0] in the source. *)
Definition action (R : Type) : Type := state -> R.
Definition result_handler (R : Type) : Type := code -> action R.

(** header_organizer::header_organizer *)
Definition construct (c : chain) (p : gmap N pooled_header) : state :=
  {| fast_chain_ := c; mutex_ := unlocked; stopped_ := true; pool_ := p;
     validator_stopped := true; log := [] |}.

Definition stopped (w : state) : bool := stopped_ w.

Definition start (w : state) : state :=
  {| fast_chain_ := fast_chain_ w; mutex_ := mutex_ w; stopped_ := false;
     pool_ := pool_ w; validator_stopped := false; log := log w |}.

Definition stop (w : state) : state :=
  {| fast_chain_ := fast_chain_ w; mutex_ := mutex_ w; stopped_ := true;
     pool_ := pool_ w; validator_stopped := true; log := log w |}.

Definition interfere (cs : list control) (w : state) : state :=
  fold_left (fun w c => match c with ctl_start => start w | ctl_stop => stop w end)
    cs w.

(** A blocking acquisition: on return the caller holds the mutex. *)
Definition lock_high_priority (sched : schedule) (w : state) : state :=
  emit ev_lock_high_priority
    (set_mutex locked_high (interfere (while_locking sched) w)).

Definition unlock_high_priority (w : state) : state :=
  emit ev_unlock_high_priority (set_mutex unlocked w).

(** validate_header::accept(branch, handler): the validator reads the store
    and invokes [handler] once with its code; [start]/[stop] of other threads
    may have run by then. *)
Definition validator_accept {R} (sched : schedule) (branch : header_branch)
    (handler : result_handler R) : action R := fun w =>
  let w := emit (ev_accept branch) w in
  let ec := header_accept (fast_chain_ w) branch in
  handler ec (interfere (while_accepting sched) w).

(** header_organizer::handle_complete *)
Definition handle_complete {R} (ec : code) (handler : result_handler R)
    : action R := fun w =>
  let w := unlock_high_priority w in
  (* Invoke caller handler outside of critical section. *)
  handler ec w.

(** header_organizer::handle_accept *)
Definition handle_accept {R} (ec : code) (branch : header_branch)
    (handler : result_handler R) : action R := fun w =>
  if stopped w then handler service_stopped w
  else if is_error ec then handler ec w
  else
    (* The top block is valid even if the branch has insufficient work. *)
    let top := top branch in
    let work := work branch in
    let w := emit (ev_get_work work (height branch)) w in
    match get_work (fast_chain_ w) work (height branch) true with
    | None => handler operation_failed w
    | Some required_work =>
      (* Consensus. *)
      if work <=? required_work then
        let w := emit (ev_pool_add top (top_height branch)) w in
        (* [organize] passes no empty branch, so [top] is not null here. *)
        let w :=
          match top with
          | Some t => set_pool (header_pool_add t (top_height branch) (pool_ w)) w
          | None => w
          end in
        handler insufficient_work w
      else
        let w := emit (ev_reorganize (fork_point branch) (headers branch)) w in
        let '(error_code, c) :=
          reorganize (fast_chain_ w) (fork_point branch) (headers branch) in
        let w := set_chain c w in
        if is_error error_code then
          let w := emit (ev_log_fatal error_code) w in
          handler error_code w
        else handler error_code w
    end.

(** header_organizer::organize *)
Definition organize {R} (sched : schedule) (hdr : header)
    (handler : result_handler R) : action R := fun w =>
  (* Checks that are independent of chain state. *)
  let w := emit (ev_check hdr) w in
  let error_code := header_check hdr in
  if is_error error_code then handler error_code w
  else
    let complete : result_handler R := fun ec => handle_complete ec handler in
    let w := lock_high_priority sched w in
    let w := emit (ev_get_branch hdr) w in
    let branch := get_branch (pool_ w) (fast_chain_ w) hdr in
    (* The header is already memory pooled (nothing to do). *)
    if empty branch then complete duplicate_block w
    else
      let accept_handler : result_handler R :=
        fun ec => handle_accept ec branch complete in
      (* Checks that are dependent on chain state. *)
      validator_accept sched branch accept_handler w.

(** The caller's handler, as far as the log is concerned. *)
Definition notify : result_handler state := fun ec => emit (ev_handler ec).

(** The code the handler is invoked with and the state it is invoked in. *)
Definition run (sched : schedule) (hdr : header) (w : state) : code * state :=
  organize sched hdr (fun ec w => (ec, w)) w.

(** The calls logged between two states of one pipeline. *)
Definition since (w w' : state) : list event :=
  drop (length (log w)) (log w').

(** The flag that [handle_accept] reads. *)
Definition stopped_at_accept (sched : schedule) (w : state) : bool :=
  flag_after (while_accepting sched)
    (flag_after (while_locking sched) (stopped_ w)).

(** The state in which the accept continuation is entered. *)
Definition at_accept (sched : schedule) (hdr : header) (b : header_branch)
    (w : state) : state :=
  {| fast_chain_ := fast_chain_ w; mutex_ := locked_high;
     stopped_ := stopped_at_accept sched w; pool_ := pool_ w;
     validator_stopped :=
       flag_after (while_accepting sched)
         (flag_after (while_locking sched) (validator_stopped w));
     log := log w ++ [ev_check hdr; ev_lock_high_priority;
                      ev_get_branch hdr; ev_accept b] |}.

End Organizer.

Arguments state chain : clear implicits.

(** Replay of a log: does the organizing thread hold the mutex after it? *)
Fixpoint holds_mutex (held : bool) (evs : list event) : bool :=
  match evs with
  | [] => held
  | ev_lock_high_priority :: evs => holds_mutex true evs
  | ev_unlock_high_priority :: evs => holds_mutex false evs
  | _ :: evs => holds_mutex held evs
  end.

Fixpoint handler_calls (evs : list event) : nat :=
  match evs with
  | [] => 0%nat
  | ev_handler _ :: evs => S (handler_calls evs)
  | _ :: evs => handler_calls evs
  end.

(** Every handler call of the log happens while the mutex is not held. *)
Fixpoint handler_outside_lock (held : bool) (evs : list event) : bool :=
  match evs with
  | [] => true
  | ev_lock_high_priority :: evs => handler_outside_lock true evs
  | ev_unlock_high_priority :: evs => handler_outside_lock false evs
  | ev_handler _ :: evs => negb held && handler_outside_lock held evs
  | _ :: evs => handler_outside_lock held evs
  end.

Definition is_lock (e : event) : bool :=
  match e with ev_lock_high_priority => true | _ => false end.

Definition is_reorganize (e : event) : bool :=
  match e with ev_reorganize _ _ => true | _ => false end.

Definition is_pool_add (e : event) : bool :=
  match e with ev_pool_add _ _ => true | _ => false end.

Definition is_accept (e : event) : bool :=
  match e with ev_accept _ => true | _ => false end.

Definition is_log_fatal (e : event) : bool :=
  match e with ev_log_fatal _ => true | _ => false end.

(** How many calls of a kind a log holds. *)
Fixpoint count_events (p : event -> bool) (evs : list event) : nat :=
  match evs with
  | [] => 0%nat
  | e :: evs => ((if p e then 1 else 0) + count_events p evs)%nat
  end.

(** Replay of a log against the critical section: the mutex is locked only
    when free and unlocked only when held, the check runs outside, and the
    pool, the validator's accept and the store are reached only while the
    mutex is held. *)
Fixpoint inside_critical_section (held : bool) (evs : list event) : bool :=
  match evs with
  | [] => true
  | ev_lock_high_priority :: evs =>
    negb held && inside_critical_section true evs
  | ev_unlock_high_priority :: evs =>
    held && inside_critical_section false evs
  | ev_check _ :: evs => negb held && inside_critical_section held evs
  | ev_get_branch _ :: evs | ev_accept _ :: evs | ev_get_work _ _ :: evs
  | ev_pool_add _ _ :: evs | ev_reorganize _ _ :: evs
  | ev_log_fatal _ :: evs => held && inside_critical_section held evs
  | ev_handler _ :: evs => inside_critical_section held evs
  end.

End HeaderOrganizer.

(** ** Single-precision arithmetic of the fee policy *)

(** [settings::byte_fee_satoshis] and [sigop_fee_satoshis] are [float]:
    IEEE 754 binary32 (24 bits of precision, infinities at exponent 128),
    rounding to nearest even, every operation evaluated in that format. *)
Module Float32.

Definition float : Type := spec_float.
Definition prec : Z := 24.
Definition emax : Z := 128.

Definition zero : float := S754_zero false.
Definition mul : float -> float -> float := SFmul prec emax.
Definition add : float -> float -> float := SFadd prec emax.
Definition eqb : float -> float -> bool := SFeqb.
Definition ltb : float -> float -> bool := SFltb.
Definition leb : float -> float -> bool := SFleb.

(** Conversion of a [size_t] operand in [float * size_t]. *)
Definition of_size_t (n : N) : float :=
  binary_normalize prec emax (Z.of_N n) 0 false.

(** [static_cast<uint64_t>(f)]: truncation toward zero; the behaviour is
    undefined ([None]) when the truncated value is not representable. *)
Definition to_uint64 (f : float) : option N :=
  match f with
  | S754_zero _ => Some 0
  | S754_finite s m e =>
    let t := Z.shiftl (Zpos m) e in
    if s then (if (t =? 0)%Z then Some 0 else None)
    else if (t <? 2 ^ 64)%Z then Some (Z.to_N t) else None
  | S754_infinity _ | S754_nan => None
  end.

(** A binary32 literal [m * 2^e]. *)
Definition lit (m : positive) (e : Z) : float :=
  binary_normalize prec emax (Zpos m) e false.

(** The number a float stands for, [m * 2^e] with its sign: an integer for
    an exponent that is not negative, a fraction over a power of two
    otherwise.  The infinities and NaN stand for none. *)
Definition to_Q (f : float) : option Q :=
  match f with
  | S754_zero _ => Some 0%Q
  | S754_finite s m e =>
    let n := if s then Zneg m else Zpos m in
    Some match e with
         | Zneg p => Qmake n (2 ^ p)
         | _ => inject_Z (n * 2 ^ e)
         end
  | S754_infinity _ | S754_nan => None
  end.

(** A zero of either sign. *)
Definition is_zero (f : float) : bool :=
  match f with S754_zero _ => true | _ => false end.

(** A zero, a positive number or the positive infinity. *)
Definition not_negative (f : float) : bool :=
  match f with
  | S754_zero _ | S754_finite false _ _ | S754_infinity false => true
  | _ => false
  end.

End Float32.

(** Modelled from the spec: blockchain::settings (settings.hpp is not among
    the sources): the three options the transaction organizer consumes. *)
Record settings : Type := {
  byte_fee_satoshis : Float32.float;
  sigop_fee_satoshis : Float32.float;
  minimum_output_satoshis : N
}.

(** ** organize_transaction *)

Module OrganizeTransaction.

Inductive event : Type :=
| ev_check (tx : transaction) (max_money : N)
| ev_lock_low_priority
| ev_unlock_low_priority
| ev_exists (tx : transaction)
| ev_reset_promise
| ev_accept (tx : transaction)
| ev_connect (tx : transaction)
| ev_store (tx : transaction)
| ev_log_fatal (ec : code)
| ev_set_value (ec : code)
| ev_future_get
| ev_handler (ec : code).

(** What other threads do at the three points where the pipeline waits. *)
Record schedule : Type := {
  while_locking : list control;
  while_accepting : list control;
  while_connecting : list control
}.

(** organize_transaction::sufficient_fee.  [None] is the undefined cast. *)
Definition sufficient_fee (settings_ : settings) (tx : transaction)
    : option bool :=
  let byte_fee := byte_fee_satoshis settings_ in
  let sigop_fee := sigop_fee_satoshis settings_ in
  (* Guard against summing signed values by testing independently. *)
  if Float32.eqb byte_fee Float32.zero && Float32.eqb sigop_fee Float32.zero
  then Some true
  else
    let byte :=
      if Float32.ltb Float32.zero byte_fee
      then Float32.mul byte_fee (Float32.of_size_t (serialized_size tx))
      else Float32.zero in
    let sigop :=
      if Float32.ltb Float32.zero sigop_fee
      then Float32.mul sigop_fee (Float32.of_size_t (signature_operations tx))
      else Float32.zero in
    (* Require at least one satoshi per tx if there are any fees configured. *)
    match Float32.to_uint64 (Float32.add byte sigop) with
    | None => None
    | Some cast =>
      let price := N.max 1 cast in
      let paid := fees tx in
      Some (price <=? paid)
    end.

(** The sum of the specification,
    byte_fee * serialized_size + sigop_fee * sigop_count, over the
    rationals: the products and the sum are exact. *)
Definition exact_sum (settings_ : settings) (tx : transaction) : option Q :=
  byte_fee ← Float32.to_Q (byte_fee_satoshis settings_);
  sigop_fee ← Float32.to_Q (sigop_fee_satoshis settings_);
  Some (byte_fee * inject_Z (Z.of_N (serialized_size tx))
        + sigop_fee * inject_Z (Z.of_N (signature_operations tx)))%Q.

(** The price in the words of the specification,
    max(1, floor(byte_fee * serialized_size + sigop_fee * sigop_count)). *)
Definition specified_price (settings_ : settings) (tx : transaction)
    : option N :=
  (fun sum => Z.to_N (Z.max 1 (Qfloor sum))) <$> exact_sum settings_ tx.

(** The policy in the words of the specification: accept when both fees
    are zero, otherwise accept iff the fees paid are at least the price. *)
Definition specified_sufficient_fee (settings_ : settings) (tx : transaction)
    : option bool :=
  if Float32.is_zero (byte_fee_satoshis settings_)
     && Float32.is_zero (sigop_fee_satoshis settings_)
  then Some true
  else (fun price => price <=? fees tx) <$> specified_price settings_ tx.

(** The same sum as binary32 evaluates it: the two counts converted to
    [float], each product rounded to nearest even, then the sum. *)
Definition single_precision_sum (settings_ : settings) (tx : transaction)
    : spec_float :=
  SFadd 24 128
    (SFmul 24 128 (byte_fee_satoshis settings_)
       (binary_normalize 24 128 (Z.of_N (serialized_size tx)) 0 false))
    (SFmul 24 128 (sigop_fee_satoshis settings_)
       (binary_normalize 24 128 (Z.of_N (signature_operations tx)) 0 false)).

(** max(1, floor(S)) for the single-precision sum S, where the floor is a
    [uint64_t]. *)
Definition single_precision_price (settings_ : settings) (tx : transaction)
    : option N :=
  sum ← Float32.to_Q (single_precision_sum settings_ tx);
  let price := Qfloor sum in
  if (0 <=? price)%Z && (price <? 2 ^ 64)%Z
  then Some (Z.to_N (Z.max 1 price))
  else None.

(** Both configured fees compare equal to zero. *)
Definition no_fees (settings_ : settings) : bool :=
  Float32.eqb (byte_fee_satoshis settings_) Float32.zero
  && Float32.eqb (sigop_fee_satoshis settings_) Float32.zero.

(** The fee is not negative (and is a number). *)
Definition non_negative (f : Float32.float) : bool :=
  Float32.leb Float32.zero f.

Section Organizer.

Context {chain pool : Type} `{!FastChain chain, !TransactionValidator chain,
  !TransactionPool pool}.

(** The members of the class and the call log.  [resume_] is the promise:
    [None] until a value is set. *)
Record state : Type := {
  fast_chain_ : chain;
  mutex_ : mutex_state;
  stopped_ : bool;
  resume_ : option code;
  settings_ : settings;
  pool_ : pool;
  validator_stopped : bool;
  log : list event
}.

Definition set_chain (c : chain) (w : state) : state :=
  {| fast_chain_ := c; mutex_ := mutex_ w; stopped_ := stopped_ w;
     resume_ := resume_ w; settings_ := settings_ w; pool_ := pool_ w;
     validator_stopped := validator_stopped w; log := log w |}.

Definition set_mutex (m : mutex_state) (w : state) : state :=
  {| fast_chain_ := fast_chain_ w; mutex_ := m; stopped_ := stopped_ w;
     resume_ := resume_ w; settings_ := settings_ w; pool_ := pool_ w;
     validator_stopped := validator_stopped w; log := log w |}.

Definition set_resume (r : option code) (w : state) : state :=
  {| fast_chain_ := fast_chain_ w; mutex_ := mutex_ w; stopped_ := stopped_ w;
     resume_ := r; settings_ := settings_ w; pool_ := pool_ w;
     validator_stopped := validator_stopped w; log := log w |}.

Definition emit (e : event) (w : state) : state :=
  {| fast_chain_ := fast_chain_ w; mutex_ := mutex_ w; stopped_ := stopped_ w;
     resume_ := resume_ w; settings_ := settings_ w; pool_ := pool_ w;
     validator_stopped := validator_stopped w; log := log w ++ [e] |}.

(** [None]: the call does not return normally (it waits on a promise that
    is never satisfied, throws, or its behaviour is undefined). *)
Definition action (R : Type) : Type := state -> option R.
Definition result_handler (R : Type) : Type := code -> action R.

(** organize_transaction::organize_transaction *)
Definition construct (c : chain) (p : pool) (s : settings) : state :=
  {| fast_chain_ := c; mutex_ := unlocked; stopped_ := true; resume_ := None;
     settings_ := s; pool_ := p; validator_stopped := true; log := [] |}.

Definition stopped (w : state) : bool := stopped_ w.

Definition start (w : state) : state :=
  {| fast_chain_ := fast_chain_ w; mutex_ := mutex_ w; stopped_ := false;
     resume_ := resume_ w; settings_ := settings_ w; pool_ := pool_ w;
     validator_stopped := false; log := log w |}.

Definition stop (w : state) : state :=
  {| fast_chain_ := fast_chain_ w; mutex_ := mutex_ w; stopped_ := true;
     resume_ := resume_ w; settings_ := settings_ w; pool_ := pool_ w;
     validator_stopped := true; log := log w |}.

Definition interfere (cs : list control) (w : state) : state :=
  fold_left (fun w c => match c with ctl_start => start w | ctl_stop => stop w end)
    cs w.

(** A blocking acquisition: on return the caller holds the mutex. *)
Definition lock_low_priority (sched : schedule) (w : state) : state :=
  emit ev_lock_low_priority
    (set_mutex locked_low (interfere (while_locking sched) w)).

Definition unlock_low_priority (w : state) : state :=
  emit ev_unlock_low_priority (set_mutex unlocked w).

(** organize_transaction::signal_completion.  [set_value] on a promise that
    already holds a value throws. *)
Definition signal_completion : result_handler state := fun ec w =>
  let w := emit (ev_set_value ec) w in
  match resume_ w with
  | None => Some (set_resume (Some ec) w)
  | Some _ => None
  end.

(** validate_transaction::accept(tx, handler) and ::connect(tx, handler):
    the validator reads the store and invokes [handler] once with its code;
    [start]/[stop] of other threads may have run by then. *)
Definition validator_accept {R} (sched : schedule) (tx : transaction)
    (handler : result_handler R) : action R := fun w =>
  let w := emit (ev_accept tx) w in
  let ec := tx_accept (fast_chain_ w) tx in
  handler ec (interfere (while_accepting sched) w).

Definition validator_connect {R} (sched : schedule) (tx : transaction)
    (handler : result_handler R) : action R := fun w =>
  let w := emit (ev_connect tx) w in
  let ec := tx_connect (fast_chain_ w) tx in
  handler ec (interfere (while_connecting sched) w).

(** organize_transaction::handle_connect *)
Definition handle_connect {R} (ec : code) (tx : transaction)
    (handler : result_handler R) : action R := fun w =>
  if stopped w then handler service_stopped w
  else if is_error ec then handler ec w
  else
    (* TODO: add to pool_. *)
    let w := emit (ev_store tx) w in
    let '(error_code, c) := store (fast_chain_ w) tx in
    let w := set_chain c w in
    if is_error error_code then
      let w := emit (ev_log_fatal error_code) w in
      handler error_code w
    else handler error_code w.

(** organize_transaction::handle_accept *)
Definition handle_accept {R} (sched : schedule) (ec : code) (tx : transaction)
    (handler : result_handler R) : action R := fun w =>
  if stopped w then handler service_stopped w
  else if is_error ec then handler ec w
  else
    (* Policy. *)
    match sufficient_fee (settings_ w) tx with
    | None => None
    | Some false => handler insufficient_fee w
    | Some true =>
      (* Policy. *)
      if is_dusty tx (minimum_output_satoshis (settings_ w))
      then handler dusty_transaction w
      else
        let connect_handler : result_handler R :=
          fun ec => handle_connect ec tx handler in
        (* Checks that include script metadata. *)
        validator_connect sched tx connect_handler w
    end.

(** organize_transaction::organize *)
Definition organize {R} (sched : schedule) (tx : transaction)
    (handler : result_handler R) (max_money : N) : action R := fun w =>
  (* Checks that are independent of chain state. *)
  let w := emit (ev_check tx max_money) w in
  let error_code := tx_check tx max_money in
  if is_error error_code then handler error_code w
  else
    let w := lock_low_priority sched w in
    if stopped w then
      let w := unlock_low_priority w in
      handler service_stopped w
    else
      (* This locates only unconfirmed transactions discovered since startup. *)
      let w := emit (ev_exists tx) w in
      let exists_ := transaction_pool_exists (pool_ w) tx in
      (* The tx is already memory pooled (nothing to do). *)
      if exists_ then
        let w := unlock_low_priority w in
        handler duplicate_transaction w
      else
        (* Reset the reusable promise. *)
        let w := emit ev_reset_promise (set_resume None w) in
        let complete : result_handler state := signal_completion in
        let accept_handler : result_handler state :=
          fun ec => handle_accept sched ec tx complete in
        (* Checks that are dependent on chain state and prevouts. *)
        w ← validator_accept sched tx accept_handler w;
        (* Wait on completion signal. *)
        let w := emit ev_future_get w in
        error_code ← resume_ w;
        let w := unlock_low_priority w in
        (* Invoke caller handler outside of critical section. *)
        handler error_code w.

(** The caller's handler, as far as the log is concerned. *)
Definition notify : result_handler state :=
  fun ec w => Some (emit (ev_handler ec) w).

(** The code the handler is invoked with and the state it is invoked in. *)
Definition run (sched : schedule) (tx : transaction) (max_money : N)
    (w : state) : option (code * state) :=
  organize sched tx (fun ec w => Some (ec, w)) max_money w.

(** The calls logged between two states of one pipeline. *)
Definition since (w w' : state) : list event :=
  drop (length (log w)) (log w').

(** The flag that [organize] reads after locking, and the ones that
    [handle_accept] and [handle_connect] read. *)
Definition stopped_at_entry (sched : schedule) (w : state) : bool :=
  flag_after (while_locking sched) (stopped_ w).

Definition stopped_at_accept (sched : schedule) (w : state) : bool :=
  flag_after (while_accepting sched) (stopped_at_entry sched w).

Definition stopped_at_connect (sched : schedule) (w : state) : bool :=
  flag_after (while_connecting sched) (stopped_at_accept sched w).

End Organizer.

Arguments state chain pool : clear implicits.

(** Replay of a log: does the organizing thread hold the mutex after it? *)
Fixpoint holds_mutex (held : bool) (evs : list event) : bool :=
  match evs with
  | [] => held
  | ev_lock_low_priority :: evs => holds_mutex true evs
  | ev_unlock_low_priority :: evs => holds_mutex false evs
  | _ :: evs => holds_mutex held evs
  end.

Fixpoint handler_calls (evs : list event) : nat :=
  match evs with
  | [] => 0%nat
  | ev_handler _ :: evs => S (handler_calls evs)
  | _ :: evs => handler_calls evs
  end.

(** Every handler call of the log happens while the mutex is not held. *)
Fixpoint handler_outside_lock (held : bool) (evs : list event) : bool :=
  match evs with
  | [] => true
  | ev_lock_low_priority :: evs => handler_outside_lock true evs
  | ev_unlock_low_priority :: evs => handler_outside_lock false evs
  | ev_handler _ :: evs => negb held && handler_outside_lock held evs
  | _ :: evs => handler_outside_lock held evs
  end.

Definition is_lock (e : event) : bool :=
  match e with ev_lock_low_priority => true | _ => false end.

Definition is_store (e : event) : bool :=
  match e with ev_store _ => true | _ => false end.

Definition is_accept (e : event) : bool :=
  match e with ev_accept _ => true | _ => false end.

Definition is_connect (e : event) : bool :=
  match e with ev_connect _ => true | _ => false end.

Definition is_log_fatal (e : event) : bool :=
  match e with ev_log_fatal _ => true | _ => false end.

Definition is_set_value (e : event) : bool :=
  match e with ev_set_value _ => true | _ => false end.

Definition is_reset_promise (e : event) : bool :=
  match e with ev_reset_promise => true | _ => false end.

(** How many calls of a kind a log holds. *)
Fixpoint count_events (p : event -> bool) (evs : list event) : nat :=
  match evs with
  | [] => 0%nat
  | e :: evs => ((if p e then 1 else 0) + count_events p evs)%nat
  end.

(** Replay of a log against the order of the stages: the validator's
    connect is called only when its accept has been called before, and
    [store] only when connect has been called before. *)
Fixpoint stages_in_order (accepted connected : bool) (evs : list event)
    : bool :=
  match evs with
  | [] => true
  | ev_accept _ :: evs => stages_in_order true connected evs
  | ev_connect _ :: evs => accepted && stages_in_order accepted true evs
  | ev_store _ :: evs => connected && stages_in_order accepted connected evs
  | _ :: evs => stages_in_order accepted connected evs
  end.

(** Replay of a log against the critical section: the mutex is locked only
    when free and unlocked only when held, the check runs outside, and the
    pool, the promise, the validator and the store are reached only while
    the mutex is held. *)
Fixpoint inside_critical_section (held : bool) (evs : list event) : bool :=
  match evs with
  | [] => true
  | ev_lock_low_priority :: evs =>
    negb held && inside_critical_section true evs
  | ev_unlock_low_priority :: evs =>
    held && inside_critical_section false evs
  | ev_check _ _ :: evs => negb held && inside_critical_section held evs
  | ev_exists _ :: evs | ev_reset_promise :: evs | ev_accept _ :: evs
  | ev_connect _ :: evs | ev_store _ :: evs | ev_log_fatal _ :: evs
  | ev_set_value _ :: evs | ev_future_get :: evs =>
    held && inside_critical_section held evs
  | ev_handler _ :: evs => inside_critical_section held evs
  end.

End OrganizeTransaction.

(** ** A small store and validators, for concrete runs *)

Module Demo.

(** A store that records the hashes written to it.  [get_work] answers
    [candidate_work]; a [faulty] store fails each write and is left as it
    was. *)
Record ledger : Type := {
  candidate_work : option N;
  written : list N;
  faulty : bool
}.

Definition write (hs : list N) (c : ledger) : ledger :=
  {| candidate_work := candidate_work c; written := hs ++ written c;
     faulty := faulty c |}.

#[global] Instance ledger_chain : FastChain ledger := {
  get_work c overcome above_height candidate := candidate_work c;
  reorganize c fork hs :=
    if faulty c then (other_error 1, c)
    else (success, write (map hash hs) c);
  store c tx :=
    if faulty c then (other_error 2, c)
    else (success, write [tx_hash tx] c)
}.

(** Headers need non-zero bits to pass the check and a non-zero timestamp
    to be accepted. *)
#[global] Instance ledger_header_validator : HeaderValidator ledger := {
  header_check h := if bits h =? 0 then other_error 3 else success;
  header_accept c b :=
    if existsb (fun h => timestamp h =? 0) (headers b)
    then other_error 4 else success
}.

(** A header that is pooled or written gives the empty branch; otherwise
    the branch is the header, below it its parent when that is pooled. *)
#[global] Instance ledger_branch_builder : BranchBuilder ledger := {
  get_branch p c h :=
    let fork ph :=
      {| cp_hash := ph; cp_height := N.of_nat (length (written c)) |} in
    if header_pool_exists p h || bool_decide (hash h ∈ written c)
    then {| fork_point := fork 0; headers := []; work := 0 |}
    else
      match p !! previous_block_hash h with
      | Some (parent, _) =>
        {| fork_point := fork (previous_block_hash parent);
           headers := [parent; h]; work := bits parent + bits h |}
      | None =>
        {| fork_point := fork (previous_block_hash h);
           headers := [h]; work := bits h |}
      end
}.

#[global] Instance ledger_transaction_validator
    : TransactionValidator ledger := {
  tx_check tx max_money :=
    if fees tx <=? max_money then success else other_error 5;
  tx_accept c tx :=
    if bool_decide (tx_hash tx ∈ written c) then other_error 6 else success;
  tx_connect c tx :=
    if signature_operations tx =? 0 then other_error 7 else success
}.

(** Modelled from the spec: the transaction pool as a set of transaction
    hashes with a membership test. *)
#[global] Instance hash_set_pool : TransactionPool (gset N) := {
  transaction_pool_exists p tx := bool_decide (tx_hash tx ∈ p)
}.

(** A store that cannot tell the work of its candidate chain. *)
Definition blind : ledger :=
  {| candidate_work := None; written := []; faulty := false |}.

Definition sound (required : N) : ledger :=
  {| candidate_work := Some required; written := []; faulty := false |}.

Definition failing (required : N) : ledger :=
  {| candidate_work := Some required; written := []; faulty := true |}.

Definition mk_header (h prev time b : N) : header :=
  {| hash := h; previous_block_hash := prev; merkle_root := 0;
     timestamp := time; bits := b; version := 1; nonce := 0 |}.

(** Headers 11 and 12 extend header 10; header 13 is not acceptable and
    header 14 does not pass the check. *)
Definition h11 : header := mk_header 11 10 1000 5.
Definition h12 : header := mk_header 12 11 1001 7.
Definition h13 : header := mk_header 13 10 0 5.
Definition h14 : header := mk_header 14 10 1000 0.

Definition quiet : HeaderOrganizer.schedule :=
  {| HeaderOrganizer.while_locking := [];
     HeaderOrganizer.while_accepting := [] |}.

(** [stop] is called while the validator is accepting. *)
Definition stop_in_accept : HeaderOrganizer.schedule :=
  {| HeaderOrganizer.while_locking := [];
     HeaderOrganizer.while_accepting := [ctl_stop] |}.

(** A started header organizer over a store and a pool. *)
Definition header_organizer (c : ledger) (p : gmap N pooled_header)
    : HeaderOrganizer.state ledger :=
  HeaderOrganizer.start (HeaderOrganizer.construct c p).

(** No fee configured, and one satoshi per byte plus a hundred per
    signature operation. *)
Definition free_policy : settings :=
  {| byte_fee_satoshis := Float32.zero; sigop_fee_satoshis := Float32.zero;
     minimum_output_satoshis := 0 |}.

Definition priced_policy : settings :=
  {| byte_fee_satoshis := Float32.lit 1 0;
     sigop_fee_satoshis := Float32.lit 100 0;
     minimum_output_satoshis := 546 |}.

(** Half a satoshi per byte, and 0.7f satoshis per byte: the float nearest
    to 0.7, 11744051 * 2^-24. *)
Definition half_policy : settings :=
  {| byte_fee_satoshis := Float32.lit 1 (-1);
     sigop_fee_satoshis := Float32.zero;
     minimum_output_satoshis := 0 |}.

Definition odd_policy : settings :=
  {| byte_fee_satoshis := S754_finite false 11744051 (-24);
     sigop_fee_satoshis := Float32.zero;
     minimum_output_satoshis := 0 |}.

(** A transaction of [size] bytes without signature operations that pays
    [paid]. *)
Definition sized_tx (size paid : N) : transaction :=
  {| tx_hash := 110; serialized_size := size; signature_operations := 0;
     fees := paid; output_values := [] |}.

(** 250 bytes and 2 signature operations: priced at 450 satoshis. *)
Definition mk_tx (h paid : N) : transaction :=
  {| tx_hash := h; serialized_size := 250; signature_operations := 2;
     fees := paid; output_values := [1000; 2000] |}.

Definition tx1 : transaction := mk_tx 101 450.
Definition tx_unpaid : transaction := mk_tx 102 0.

Definition max_money : N := 2100000000000000.

(** A paid transaction with an output below the 546 satoshis of the priced
    policy, and one without signature operations (priced at 250), which the
    validator does not connect. *)
Definition tx_dusty : transaction :=
  {| tx_hash := 106; serialized_size := 250; signature_operations := 2;
     fees := 450; output_values := [1000; 100] |}.

Definition tx_no_sigops : transaction :=
  {| tx_hash := 107; serialized_size := 250; signature_operations := 0;
     fees := 250; output_values := [1000] |}.

(** A store that already holds transaction 101. *)
Definition holding_tx1 : ledger :=
  {| candidate_work := Some 0; written := [101]; faulty := false |}.

(** A transaction that claims more fees than there is money. *)
Definition tx_overspent : transaction := mk_tx 103 (max_money + 1).

Definition calm : OrganizeTransaction.schedule :=
  {| OrganizeTransaction.while_locking := [];
     OrganizeTransaction.while_accepting := [];
     OrganizeTransaction.while_connecting := [] |}.

(** A started transaction organizer over a store, a pool and settings. *)
Definition transaction_organizer (c : ledger) (p : gset N) (s : settings)
    : OrganizeTransaction.state ledger (gset N) :=
  OrganizeTransaction.start (OrganizeTransaction.construct c p s).

End Demo.

(** * Properties *)

Lemma is_error_false (ec : code) : is_error ec = false <-> ec = success.
Proof. destruct ec; simpl; split; congruence. Qed.

Lemma is_error_true (ec : code) : is_error ec = true <-> ec <> success.
Proof. destruct ec; simpl; split; congruence. Qed.

Lemma flag_after_app (cs cs' : list control) (b : bool) :
  flag_after (cs ++ cs') b = flag_after cs' (flag_after cs b).
Proof. unfold flag_after. apply fold_left_app. Qed.

Lemma flag_after_nil (b : bool) : flag_after [] b = b.
Proof. reflexivity. Qed.

(** The flag is what the most recent of [start] and [stop] wrote. *)
Lemma flag_after_last (cs : list control) (b : bool) :
  flag_after cs b =
  match last cs with
  | Some ctl_stop => true
  | Some ctl_start => false
  | None => b
  end.
Proof.
  induction cs as [|c cs _] using rev_ind; [reflexivity|].
  rewrite flag_after_app, last_snoc. destruct c; reflexivity.
Qed.

(** Calls of [stop] alone leave a stopped organizer stopped. *)
Lemma flag_after_only_stops (cs : list control) :
  Forall (eq ctl_stop) cs -> flag_after cs true = true.
Proof.
  induction 1 as [|c cs Hc _ IH]; [reflexivity|].
  subst c. exact IH.
Qed.

Lemma header_pool_add_preserves (h : header) (ht : N)
    (p : gmap N pooled_header) (k : N) (v : pooled_header) :
  p !! k = Some v -> header_pool_add h ht p !! k = Some v.
Proof.
  intros Hk. unfold header_pool_add.
  destruct (p !! hash h) eqn:E; [exact Hk|].
  rewrite lookup_insert_ne; [exact Hk|]. intros Heq. congruence.
Qed.

(** ** The header pool *)

Lemma header_pool_add_other (h h' : header) (ht : N)
    (p : gmap N pooled_header) :
  hash h' <> hash h -> header_pool_add h ht p !! hash h' = p !! hash h'.
Proof.
  intros Hne. unfold header_pool_add.
  destruct (p !! hash h) eqn:E; [reflexivity|].
  apply lookup_insert_ne. congruence.
Qed.

Lemma header_pool_add_exists (h : header) (ht : N) (p : gmap N pooled_header) :
  header_pool_exists (header_pool_add h ht p) h = true.
Proof.
  unfold header_pool_exists, header_pool_add.
  apply bool_decide_eq_true.
  destruct (p !! hash h) eqn:E.
  - rewrite E. eauto.
  - rewrite lookup_insert_eq. eauto.
Qed.

(** ** header_organizer *)

Module HeaderFacts.
Import HeaderOrganizer.

Section Facts.

Context {chain : Type} `{!FastChain chain, !HeaderValidator chain,
  !BranchBuilder chain}.

Local Abbreviation state := (state chain).

(** [start] and [stop] write the two flags and nothing else. *)
Lemma interfere_eq (cs : list control) (w : state) :
  interfere cs w =
  {| fast_chain_ := fast_chain_ w; mutex_ := mutex_ w;
     stopped_ := flag_after cs (stopped_ w); pool_ := pool_ w;
     validator_stopped := flag_after cs (validator_stopped w);
     log := log w |}.
Proof.
  revert w. induction cs as [|c cs IH]; intros w.
  - destruct w; reflexivity.
  - unfold interfere in *. simpl. rewrite IH. destruct c; reflexivity.
Qed.

Lemma since_app (w w' : state) (evs : list event) :
  log w' = log w ++ evs -> since w w' = evs.
Proof. intros E. unfold since. rewrite E. apply drop_app_length. Qed.

(** The pipeline calls its handler once: whatever the handler is, the call
    is that handler applied to the code and the state that [run] returns. *)
Lemma organize_run {R} (sched : schedule) (hdr : header)
    (handler : result_handler R) (w : state) :
  organize sched hdr handler w =
  handler (run sched hdr w).1 (run sched hdr w).2.
Proof.
  unfold run, organize, validator_accept, handle_accept, handle_complete.
  repeat (case_match; simpl; try reflexivity).
Qed.

Ltac run_organize :=
  unfold run, organize, validator_accept, handle_accept, handle_complete,
    lock_high_priority, unlock_high_priority, stopped;
  rewrite ?interfere_eq; simpl.

Lemma run_check_failure (sched : schedule) (hdr : header) (w : state) :
  is_error (header_check hdr) = true ->
  run sched hdr w = (header_check hdr, emit (ev_check hdr) w).
Proof. intros Hc. run_organize. rewrite Hc. reflexivity. Qed.

Lemma run_empty_branch (sched : schedule) (hdr : header) (w : state) :
  header_check hdr = success ->
  empty (get_branch (pool_ w) (fast_chain_ w) hdr) = true ->
  run sched hdr w =
  (duplicate_block,
   {| fast_chain_ := fast_chain_ w; mutex_ := unlocked;
      stopped_ := flag_after (while_locking sched) (stopped_ w);
      pool_ := pool_ w;
      validator_stopped :=
        flag_after (while_locking sched) (validator_stopped w);
      log := log w ++ [ev_check hdr; ev_lock_high_priority;
                       ev_get_branch hdr; ev_unlock_high_priority] |}).
Proof.
  intros Hc He. run_organize. rewrite Hc, He. simpl.
  unfold unlock_high_priority, emit, set_mutex. simpl.
  rewrite <- !app_assoc. reflexivity.
Qed.

Lemma organize_accept {R} (sched : schedule) (hdr : header)
    (handler : result_handler R) (w : state) :
  header_check hdr = success ->
  empty (get_branch (pool_ w) (fast_chain_ w) hdr) = false ->
  organize sched hdr handler w =
  handle_accept
    (header_accept (fast_chain_ w) (get_branch (pool_ w) (fast_chain_ w) hdr))
    (get_branch (pool_ w) (fast_chain_ w) hdr)
    (fun ec => handle_complete ec handler)
    (at_accept sched hdr (get_branch (pool_ w) (fast_chain_ w) hdr) w).
Proof.
  intros Hc He. unfold organize, validator_accept, lock_high_priority.
  rewrite !interfere_eq. simpl. rewrite Hc, He. simpl.
  unfold at_accept, stopped_at_accept. rewrite <- !app_assoc. reflexivity.
Qed.

(** The four ways through [handle_accept]. *)
Lemma handle_accept_stopped {R} (ec : code) (b : header_branch)
    (handler : result_handler R) (w : state) :
  stopped w = true -> handle_accept ec b handler w = handler service_stopped w.
Proof. intros Hs. unfold handle_accept. rewrite Hs. reflexivity. Qed.

Lemma handle_accept_error {R} (ec : code) (b : header_branch)
    (handler : result_handler R) (w : state) :
  stopped w = false -> is_error ec = true ->
  handle_accept ec b handler w = handler ec w.
Proof. intros Hs He. unfold handle_accept. rewrite Hs, He. reflexivity. Qed.

Lemma handle_accept_get_work_failed {R} (b : header_branch)
    (handler : result_handler R) (w : state) :
  stopped w = false ->
  get_work (fast_chain_ w) (work b) (height b) true = None ->
  handle_accept success b handler w =
  handler operation_failed (emit (ev_get_work (work b) (height b)) w).
Proof.
  intros Hs Hw. unfold handle_accept. rewrite Hs. simpl. rewrite Hw.
  reflexivity.
Qed.

Lemma handle_accept_insufficient_work {R} (b : header_branch) (r : N)
    (handler : result_handler R) (w : state) :
  stopped w = false ->
  get_work (fast_chain_ w) (work b) (height b) true = Some r ->
  work b <= r ->
  handle_accept success b handler w =
  handler insufficient_work
    {| fast_chain_ := fast_chain_ w; mutex_ := mutex_ w;
       stopped_ := stopped_ w;
       pool_ := match top b with
                | Some t => header_pool_add t (top_height b) (pool_ w)
                | None => pool_ w
                end;
       validator_stopped := validator_stopped w;
       log := log w ++ [ev_get_work (work b) (height b);
                        ev_pool_add (top b) (top_height b)] |}.
Proof.
  intros Hs Hw Hle. unfold handle_accept. rewrite Hs. simpl. rewrite Hw.
  apply N.leb_le in Hle. rewrite Hle. unfold emit, set_pool. simpl.
  rewrite <- ?app_assoc. simpl. destruct (top b); reflexivity.
Qed.

Lemma handle_accept_reorganize {R} (b : header_branch) (r : N)
    (handler : result_handler R) (w : state) :
  stopped w = false ->
  get_work (fast_chain_ w) (work b) (height b) true = Some r ->
  r < work b ->
  handle_accept success b handler w =
  handler (reorganize (fast_chain_ w) (fork_point b) (headers b)).1
    {| fast_chain_ := (reorganize (fast_chain_ w) (fork_point b) (headers b)).2;
       mutex_ := mutex_ w; stopped_ := stopped_ w; pool_ := pool_ w;
       validator_stopped := validator_stopped w;
       log := log w ++
         [ev_get_work (work b) (height b);
          ev_reorganize (fork_point b) (headers b)] ++
         (if is_error (reorganize (fast_chain_ w) (fork_point b) (headers b)).1
          then [ev_log_fatal
                  (reorganize (fast_chain_ w) (fork_point b) (headers b)).1]
          else []) |}.
Proof.
  intros Hs Hw Hlt. unfold handle_accept. rewrite Hs. simpl. rewrite Hw.
  apply N.leb_gt in Hlt. rewrite Hlt. simpl.
  destruct (reorganize (fast_chain_ w) (fork_point b) (headers b))
    as [ec c] eqn:E.
  unfold emit, set_chain. simpl.
  destruct (is_error ec); simpl; rewrite <- ?app_assoc; reflexivity.
Qed.

Lemma top_of_nonempty (b : header_branch) :
  empty b = false -> exists t, top b = Some t.
Proof.
  unfold empty, top. destruct (headers b) as [|h hs] eqn:E; [discriminate|].
  intros _. destruct (last (h :: hs)) eqn:L; [eauto|].
  apply last_None in L. discriminate.
Qed.

Lemma run_nonempty (sched : schedule) (hdr : header) (b : header_branch)
    (w : state) :
  header_check hdr = success ->
  get_branch (pool_ w) (fast_chain_ w) hdr = b ->
  empty b = false ->
  run sched hdr w =
  handle_accept (header_accept (fast_chain_ w) b) b
    (fun ec w => (ec, unlock_high_priority w)) (at_accept sched hdr b w).
Proof.
  intros Hc Hb He. subst b. unfold run. rewrite organize_accept by assumption.
  reflexivity.
Qed.

Ltac log_since :=
  apply since_app; simpl; rewrite <- ?app_assoc; simpl; reflexivity.

(** Case analysis of a run: every test of the pipeline is decided, and the
    hypothesis becomes the equation of the result. *)
Ltac decide_run H :=
  unfold run, organize, validator_accept, handle_accept, handle_complete,
    lock_high_priority, unlock_high_priority, stopped in H;
  repeat (rewrite ?interfere_eq in H; simpl in H;
          match type of H with
          | context [if ?b then _ else _] =>
            let E := fresh "E" in destruct b eqn:E
          | context [match ?x with _ => _ end] =>
            let E := fresh "E" in destruct x eqn:E
          end);
  rewrite ?interfere_eq in H; simpl in H;
  try (injection H as <- <-).

Ltac since_eval :=
  unfold since; simpl; rewrite <- ?app_assoc; simpl;
  rewrite ?drop_app_length; simpl.

Lemma handler_calls_app (evs evs' : list event) :
  handler_calls (evs ++ evs') = (handler_calls evs + handler_calls evs')%nat.
Proof.
  induction evs as [|e evs IH]; [reflexivity|].
  destruct e; simpl; rewrite IH; reflexivity.
Qed.

(** A handler call appended to a log without handler calls that leaves the
    mutex free is a call outside the critical section. *)
Lemma handler_after_release (held : bool) (evs : list event) (c : code) :
  handler_calls evs = 0%nat ->
  holds_mutex held evs = false ->
  handler_outside_lock held (evs ++ [ev_handler c]) = true.
Proof.
  revert held. induction evs as [|e evs IH]; intros held Hn Hm.
  - simpl in *. rewrite Hm. reflexivity.
  - destruct e; simpl in *; try discriminate Hn; apply IH; assumption.
Qed.

(** The mutex discipline of a run: before the handler is called no handler
    call is logged and the mutex is free; it was locked only to be unlocked. *)
Lemma run_discipline (sched : schedule) (hdr : header) (w : state) :
  log (run sched hdr w).2 = log w ++ since w (run sched hdr w).2
  /\ handler_calls (since w (run sched hdr w).2) = 0%nat
  /\ holds_mutex false (since w (run sched hdr w).2) = false
  /\ (existsb is_lock (since w (run sched hdr w).2) = true ->
      mutex_ (run sched hdr w).2 = unlocked).
Proof.
  destruct (run sched hdr w) as [c w'] eqn:Hrun. simpl.
  decide_run Hrun; since_eval; repeat split; intros; congruence.
Qed.

Lemma since_emit (w w' : state) (e : event) (evs : list event) :
  log w' = log w ++ evs -> since w (emit e w') = evs ++ [e].
Proof.
  intros E. apply since_app. simpl. rewrite E, <- app_assoc. reflexivity.
Qed.

Lemma holds_mutex_handler (held : bool) (evs : list event) (c : code) :
  holds_mutex held (evs ++ [ev_handler c]) = holds_mutex held evs.
Proof.
  revert held. induction evs as [|e evs IH]; intros held; [reflexivity|].
  destruct e; simpl; apply IH.
Qed.

(** With the logging handler: one handler call, made with the mutex free. *)
Lemma organize_notify (sched : schedule) (hdr : header) (w : state) :
  organize sched hdr notify w =
    emit (ev_handler (run sched hdr w).1) (run sched hdr w).2
  /\ handler_calls (since w (organize sched hdr notify w)) = 1%nat
  /\ handler_outside_lock false (since w (organize sched hdr notify w)) = true
  /\ holds_mutex false (since w (organize sched hdr notify w)) = false.
Proof.
  rewrite organize_run. unfold notify.
  destruct (run_discipline sched hdr w) as (Hlog & Hn & Hm & _).
  rewrite (since_emit _ _ _ _ Hlog).
  split; [reflexivity|]. split; [|split].
  - rewrite handler_calls_app, Hn. reflexivity.
  - apply handler_after_release; assumption.
  - rewrite holds_mutex_handler. exact Hm.
Qed.


(** A run that finds the organizer stopped at the accept continuation
    writes nothing. *)
Lemma run_stopped (sched : schedule) (hdr : header) (w : state) :
  stopped_at_accept sched w = true ->
  fast_chain_ (run sched hdr w).2 = fast_chain_ w
  /\ pool_ (run sched hdr w).2 = pool_ w
  /\ existsb is_reorganize (since w (run sched hdr w).2) = false
  /\ ((run sched hdr w).1 = header_check hdr
      \/ (run sched hdr w).1 = duplicate_block
      \/ (run sched hdr w).1 = service_stopped).
Proof.
  intros Hs. unfold stopped_at_accept in Hs.
  destruct (run sched hdr w) as [c w'] eqn:Hrun. simpl.
  decide_run Hrun; since_eval; try congruence; repeat split; auto.
Qed.

(** C2. When [get_branch] returns the empty branch, [organize] unlocks the
    mutex and calls the handler with [duplicate_block], and that is all it
    does: the calls it makes are the check, the lock, [get_branch] and the
    unlock, so the validator's accept and [get_work] are not called, and the
    store and the header pool are left as they were. *)
Theorem empty_branch_returns_duplicate_block (sched : schedule)
    (hdr : header) (w : state) :
  header_check hdr = success ->
  empty (get_branch (pool_ w) (fast_chain_ w) hdr) = true ->
  (forall R (handler : result_handler R),
     organize sched hdr handler w =
     handler duplicate_block (run sched hdr w).2)
  /\ (run sched hdr w).1 = duplicate_block
  /\ since w (run sched hdr w).2 =
       [ev_check hdr; ev_lock_high_priority; ev_get_branch hdr;
        ev_unlock_high_priority]
  /\ mutex_ (run sched hdr w).2 = unlocked
  /\ fast_chain_ (run sched hdr w).2 = fast_chain_ w
  /\ pool_ (run sched hdr w).2 = pool_ w.
Proof.
  intros Hc He. split.
  - intros R handler. rewrite organize_run.
    rewrite (run_empty_branch sched hdr w Hc He). reflexivity.
  - rewrite (run_empty_branch sched hdr w Hc He). simpl.
    repeat split. log_since.
Qed.

(** C1. A branch that passes the accept step and for which [get_work]
    returns [r] is committed by [reorganize] exactly when its work is
    strictly greater than [r]; the commit is the call
    [reorganize(fork_point, headers)] and leaves the pool alone.  When the
    work is at most [r], equality included, the handler receives
    [insufficient_work], the store is not written, and the one change of the
    pool is the addition of the top of the branch at [top_height]: the top
    is in the pool afterwards and the entry of every other hash, so of every
    interior header, is what it was. *)
Theorem reorganize_iff_more_work (sched : schedule) (hdr : header)
    (b : header_branch) (r : N) (w : state) :
  header_check hdr = success ->
  get_branch (pool_ w) (fast_chain_ w) hdr = b ->
  empty b = false ->
  stopped_at_accept sched w = false ->
  header_accept (fast_chain_ w) b = success ->
  get_work (fast_chain_ w) (work b) (height b) true = Some r ->
  existsb is_reorganize (since w (run sched hdr w).2) = (r <? work b)
  /\ (r < work b ->
      ((run sched hdr w).1, fast_chain_ (run sched hdr w).2) =
        reorganize (fast_chain_ w) (fork_point b) (headers b)
      /\ In (ev_reorganize (fork_point b) (headers b))
           (since w (run sched hdr w).2)
      /\ existsb is_pool_add (since w (run sched hdr w).2) = false
      /\ pool_ (run sched hdr w).2 = pool_ w)
  /\ (work b <= r ->
      (run sched hdr w).1 = insufficient_work
      /\ fast_chain_ (run sched hdr w).2 = fast_chain_ w
      /\ since w (run sched hdr w).2 =
           [ev_check hdr; ev_lock_high_priority; ev_get_branch hdr;
            ev_accept b; ev_get_work (work b) (height b);
            ev_pool_add (top b) (top_height b); ev_unlock_high_priority]
      /\ exists t, top b = Some t
           /\ pool_ (run sched hdr w).2 =
                header_pool_add t (top_height b) (pool_ w)
           /\ header_pool_exists (pool_ (run sched hdr w).2) t = true
           /\ forall h, hash h <> hash t ->
                pool_ (run sched hdr w).2 !! hash h = pool_ w !! hash h).
Proof.
  intros Hc Hb He Hs Ha Hw.
  rewrite (run_nonempty sched hdr b w Hc Hb He), Ha.
  destruct (N.ltb_spec r (work b)) as [Hlt|Hle].
  - rewrite (handle_accept_reorganize b r) by assumption. simpl.
    destruct (reorganize (fast_chain_ w) (fork_point b) (headers b))
      as [ec c] eqn:E. simpl.
    assert (Hlog : since w
      {| fast_chain_ := c; mutex_ := unlocked;
         stopped_ := stopped_at_accept sched w; pool_ := pool_ w;
         validator_stopped := flag_after (while_accepting sched)
           (flag_after (while_locking sched) (validator_stopped w));
         log := ((log w ++ [ev_check hdr; ev_lock_high_priority;
                            ev_get_branch hdr; ev_accept b]) ++
                 ev_get_work (work b) (height b)
                 :: ev_reorganize (fork_point b) (headers b)
                 :: (if is_error ec then [ev_log_fatal ec] else [])) ++
                [ev_unlock_high_priority] |} =
      [ev_check hdr; ev_lock_high_priority; ev_get_branch hdr; ev_accept b;
       ev_get_work (work b) (height b);
       ev_reorganize (fork_point b) (headers b)] ++
      (if is_error ec then [ev_log_fatal ec] else []) ++
      [ev_unlock_high_priority]).
    { apply since_app. simpl. rewrite <- ?app_assoc. reflexivity. }
    unfold unlock_high_priority, emit, set_mutex. simpl. rewrite Hlog.
    split; [|split].
    + destruct (is_error ec); reflexivity.
    + intros _. repeat split.
      * simpl. tauto.
      * destruct (is_error ec); reflexivity.
    + intros Hle. lia.
  - rewrite (handle_accept_insufficient_work b r) by assumption. simpl.
    destruct (top_of_nonempty b He) as [t Ht].
    split; [|split].
    + unfold since. simpl. rewrite <- ?app_assoc. rewrite drop_app_length.
      reflexivity.
    + intros Hlt. lia.
    + intros _. split; [reflexivity|]. split; [reflexivity|].
      split; [log_since|].
      exists t. rewrite Ht. split; [reflexivity|]. split; [reflexivity|].
      split; [apply header_pool_add_exists|].
      intros h Hne. apply header_pool_add_other. assumption.
Qed.

(** C8, as the code has it.  When the validator's accept reports an error,
    the organizer unlocks the mutex and calls the handler with the
    validator's code if the organizer is not stopped at that point, and with
    [service_stopped] if it is; in both cases the top of the branch is not
    added to the pool and the store is not written. *)
Theorem accept_failure_is_reported (sched : schedule) (hdr : header)
    (b : header_branch) (w : state) :
  header_check hdr = success ->
  get_branch (pool_ w) (fast_chain_ w) hdr = b ->
  empty b = false ->
  is_error (header_accept (fast_chain_ w) b) = true ->
  (run sched hdr w).1 =
    (if stopped_at_accept sched w then service_stopped
     else header_accept (fast_chain_ w) b)
  /\ since w (run sched hdr w).2 =
       [ev_check hdr; ev_lock_high_priority; ev_get_branch hdr; ev_accept b;
        ev_unlock_high_priority]
  /\ mutex_ (run sched hdr w).2 = unlocked
  /\ pool_ (run sched hdr w).2 = pool_ w
  /\ fast_chain_ (run sched hdr w).2 = fast_chain_ w.
Proof.
  intros Hc Hb He Ha.
  rewrite (run_nonempty sched hdr b w Hc Hb He).
  destruct (stopped_at_accept sched w) eqn:Hs.
  - rewrite handle_accept_stopped by exact Hs. simpl.
    repeat split. log_since.
  - rewrite handle_accept_error by assumption. simpl.
    repeat split. log_since.
Qed.

(** *** Further properties of the header pipeline *)

(** X1. When [get_work] fails for an accepted branch the handler receives
    [operation_failed]: the mutex is released, nothing is added to the pool
    and [reorganize] is not called. *)
Theorem get_work_failure_is_operation_failed (sched : schedule)
    (hdr : header) (b : header_branch) (w : state) :
  header_check hdr = success ->
  get_branch (pool_ w) (fast_chain_ w) hdr = b ->
  empty b = false ->
  stopped_at_accept sched w = false ->
  header_accept (fast_chain_ w) b = success ->
  get_work (fast_chain_ w) (work b) (height b) true = None ->
  (run sched hdr w).1 = operation_failed
  /\ since w (run sched hdr w).2 =
       [ev_check hdr; ev_lock_high_priority; ev_get_branch hdr; ev_accept b;
        ev_get_work (work b) (height b); ev_unlock_high_priority]
  /\ mutex_ (run sched hdr w).2 = unlocked
  /\ fast_chain_ (run sched hdr w).2 = fast_chain_ w
  /\ pool_ (run sched hdr w).2 = pool_ w.
Proof.
  intros Hc Hb He Hs Ha Hw.
  rewrite (run_nonempty sched hdr b w Hc Hb He), Ha.
  rewrite handle_accept_get_work_failed by assumption. simpl.
  repeat split. log_since.
Qed.

(** X2. A handler that receives [success] has had its header committed: the
    check and the validator's accept passed, the organizer was not stopped,
    the branch has strictly more work than [get_work] returned, and
    [reorganize] was called on the fork point and the headers of the branch
    and returned [success] with the store the run ends in; the pool is
    untouched and nothing is logged as fatal. *)
Theorem success_means_reorganized (sched : schedule) (hdr : header)
    (w : state) :
  (run sched hdr w).1 = success ->
  header_check hdr = success
  /\ empty (get_branch (pool_ w) (fast_chain_ w) hdr) = false
  /\ stopped_at_accept sched w = false
  /\ header_accept (fast_chain_ w)
       (get_branch (pool_ w) (fast_chain_ w) hdr) = success
  /\ (exists r,
        get_work (fast_chain_ w)
          (work (get_branch (pool_ w) (fast_chain_ w) hdr))
          (height (get_branch (pool_ w) (fast_chain_ w) hdr)) true = Some r
        /\ r < work (get_branch (pool_ w) (fast_chain_ w) hdr))
  /\ reorganize (fast_chain_ w)
       (fork_point (get_branch (pool_ w) (fast_chain_ w) hdr))
       (headers (get_branch (pool_ w) (fast_chain_ w) hdr)) =
     (success, fast_chain_ (run sched hdr w).2)
  /\ pool_ (run sched hdr w).2 = pool_ w
  /\ existsb is_log_fatal (since w (run sched hdr w).2) = false.
Proof.
  unfold stopped_at_accept.
  destruct (run sched hdr w) as [c w'] eqn:Hrun. simpl. intros Hc.
  decide_run Hrun; since_eval; simpl in *; try discriminate Hc;
    try match goal with
        | Hx : is_error ?x = true, Hy : ?x = success |- _ =>
          rewrite Hy in Hx; discriminate Hx
        end.
  subst.
  repeat match goal with
         | Hx : is_error _ = false |- _ => apply is_error_false in Hx
         end.
  repeat match goal with |- _ /\ _ => split end; auto.
  eexists. split; [reflexivity|]. apply N.leb_gt. assumption.
Qed.

(** X3. The fatal log entry is written exactly when [reorganize] was called
    and the handler receives an error, and the code it records is the one
    the handler receives. *)
Theorem fatal_log_iff_reorganize_failed (sched : schedule) (hdr : header)
    (w : state) :
  existsb is_log_fatal (since w (run sched hdr w).2) =
    existsb is_reorganize (since w (run sched hdr w).2)
    && is_error (run sched hdr w).1
  /\ forall c, In (ev_log_fatal c) (since w (run sched hdr w).2) ->
       c = (run sched hdr w).1.
Proof.
  destruct (run sched hdr w) as [c w'] eqn:Hrun. simpl.
  decide_run Hrun; since_eval;
    (split; [try reflexivity; simpl; congruence
            | intros c' Hin; simpl in Hin; intuition congruence]).
Qed.

(** X4. Every run keeps to the critical section: the check runs before the
    mutex is taken, the mutex is locked at most once and released when it
    was, and [get_branch], the validator's accept, [get_work], the pool's
    [add] and [reorganize] are called only while it is held. *)
Theorem accesses_inside_critical_section (sched : schedule) (hdr : header)
    (w : state) :
  inside_critical_section false (since w (run sched hdr w).2) = true
  /\ (count_events is_lock (since w (run sched hdr w).2) <= 1)%nat.
Proof.
  destruct (run sched hdr w) as [c w'] eqn:Hrun. simpl.
  decide_run Hrun; since_eval; split; solve [reflexivity | lia].
Qed.

(** X5. A run writes at most once, and to one place: it calls [reorganize] or
    the pool's [add], never both, and each at most once; the validator's
    accept is called at most once. *)
Theorem at_most_one_write (sched : schedule) (hdr : header) (w : state) :
  (count_events is_reorganize (since w (run sched hdr w).2)
   + count_events is_pool_add (since w (run sched hdr w).2) <= 1)%nat
  /\ (count_events is_accept (since w (run sched hdr w).2) <= 1)%nat.
Proof.
  destruct (run sched hdr w) as [c w'] eqn:Hrun. simpl.
  decide_run Hrun; since_eval; split; lia.
Qed.

(** X6. The header pool only grows: an entry that is pooled before a run is
    pooled, unchanged, after it, and a run that does not call the pool's
    [add] leaves the pool as it was. *)
Theorem pool_only_grows (sched : schedule) (hdr : header) (w : state) :
  (forall k v, pool_ w !! k = Some v ->
               pool_ (run sched hdr w).2 !! k = Some v)
  /\ (existsb is_pool_add (since w (run sched hdr w).2) = false ->
      pool_ (run sched hdr w).2 = pool_ w).
Proof.
  destruct (run sched hdr w) as [c w'] eqn:Hrun. simpl.
  decide_run Hrun; since_eval; split;
    solve [ intros; assumption
          | intros; reflexivity
          | intros; discriminate
          | intros k v Hk; apply header_pool_add_preserves; exact Hk ].
Qed.

(** X7. When [stop] is the most recent of the [start] and [stop] calls made
    before the accept continuation runs, the run writes neither the store
    nor the pool, whatever the flag was before and whatever the validator
    reports; a header that passed the check and has a branch is answered
    with [service_stopped]. *)
Theorem stop_is_final (sched : schedule) (hdr : header) (w : state) :
  last (while_locking sched ++ while_accepting sched) = Some ctl_stop ->
  fast_chain_ (run sched hdr w).2 = fast_chain_ w
  /\ pool_ (run sched hdr w).2 = pool_ w
  /\ (header_check hdr = success ->
      empty (get_branch (pool_ w) (fast_chain_ w) hdr) = false ->
      (run sched hdr w).1 = service_stopped).
Proof.
  intros Hlast.
  assert (Hs : stopped_at_accept sched w = true).
  { unfold stopped_at_accept. rewrite <- flag_after_app, flag_after_last, Hlast.
    reflexivity. }
  destruct (run_stopped sched hdr w Hs) as (Hc & Hp & _ & _).
  split; [exact Hc|]. split; [exact Hp|].
  intros Hcheck He.
  rewrite (run_nonempty sched hdr _ w Hcheck eq_refl He).
  rewrite handle_accept_stopped by exact Hs. reflexivity.
Qed.

(** X18. A header organizer is constructed stopped, and until [start] is
    called it commits nothing: every run leaves the store and the pool it
    was constructed with, [reorganize] is not called, and the handler never
    receives [success].  The code is the check's when the check failed,
    [duplicate_block] when the check passed and the branch is empty, and
    [service_stopped] when the check passed and there is a branch. *)
Theorem unstarted_header_organizer_commits_nothing (c : chain)
    (p : gmap N pooled_header) (sched : schedule) (hdr : header) :
  Forall (eq ctl_stop) (while_locking sched) ->
  Forall (eq ctl_stop) (while_accepting sched) ->
  fast_chain_ (run sched hdr (construct c p)).2 = c
  /\ pool_ (run sched hdr (construct c p)).2 = p
  /\ existsb is_reorganize
       (since (construct c p) (run sched hdr (construct c p)).2) = false
  /\ is_error (run sched hdr (construct c p)).1 = true
  /\ ((is_error (header_check hdr) = true
       /\ (run sched hdr (construct c p)).1 = header_check hdr)
      \/ (header_check hdr = success
          /\ empty (get_branch p c hdr) = true
          /\ (run sched hdr (construct c p)).1 = duplicate_block)
      \/ (header_check hdr = success
          /\ empty (get_branch p c hdr) = false
          /\ (run sched hdr (construct c p)).1 = service_stopped)).
Proof.
  intros Hl Ha.
  assert (Hs : stopped_at_accept sched (construct c p) = true).
  { unfold stopped_at_accept. simpl.
    rewrite (flag_after_only_stops _ Hl). apply flag_after_only_stops, Ha. }
  destruct (run_stopped sched hdr (construct c p) Hs) as (Hc & Hp & Hr & _).
  split; [exact Hc|]. split; [exact Hp|]. split; [exact Hr|].
  destruct (is_error (header_check hdr)) eqn:Hcheck.
  - rewrite (run_check_failure _ _ _ Hcheck). simpl.
    split; [exact Hcheck|]. left. split; reflexivity.
  - apply is_error_false in Hcheck.
    destruct (empty (get_branch p c hdr)) eqn:He.
    + rewrite (run_empty_branch sched hdr (construct c p) Hcheck He). simpl.
      split; [reflexivity|]. right. left. repeat split; assumption.
    + rewrite (run_nonempty sched hdr _ (construct c p) Hcheck eq_refl He).
      rewrite handle_accept_stopped by exact Hs. simpl.
      split; [reflexivity|]. right. right. repeat split; assumption.
Qed.

End Facts.

(** A header whose parent is pooled, offered to a store whose candidate
    chain has as much work as the branch: the equality case. *)
Lemma reorganize_iff_more_work_witness :
  let w := Demo.header_organizer (Demo.sound 12) {[ 11 := (Demo.h11, 1) ]} in
  let w' := (run Demo.quiet Demo.h12 w).2 in
  existsb is_reorganize (since w w') = false
  /\ (run Demo.quiet Demo.h12 w).1 = insufficient_work
  /\ pool_ w' !! 12 = Some (Demo.h12, 2)
  /\ pool_ w' !! 11 = Some (Demo.h11, 1)
  /\ fast_chain_ w' = Demo.sound 12.
Proof.
  pose proof (reorganize_iff_more_work Demo.quiet Demo.h12
    {| fork_point := {| cp_hash := 10; cp_height := 0 |};
       headers := [Demo.h11; Demo.h12]; work := 12 |} 12
    (Demo.header_organizer (Demo.sound 12) {[ 11 := (Demo.h11, 1) ]})
    eq_refl eq_refl eq_refl eq_refl eq_refl eq_refl) as (Hiff & _ & Hle).
  destruct (Hle ltac:(reflexivity)) as (Hc & Hch & _ & t & Ht & Hp & _ & _).
  cbv zeta. injection Ht as <-.
  refine (conj Hiff (conj Hc (conj _ (conj _ Hch)))); rewrite Hp; reflexivity.
Defined.

Lemma empty_branch_returns_duplicate_block_witness :
  let w := Demo.header_organizer (Demo.sound 12) {[ 11 := (Demo.h11, 1) ]} in
  (run Demo.quiet Demo.h11 w).1 = duplicate_block
  /\ since w (run Demo.quiet Demo.h11 w).2 =
       [ev_check Demo.h11; ev_lock_high_priority; ev_get_branch Demo.h11;
        ev_unlock_high_priority].
Proof.
  pose proof (empty_branch_returns_duplicate_block Demo.quiet Demo.h11
    (Demo.header_organizer (Demo.sound 12) {[ 11 := (Demo.h11, 1) ]})
    eq_refl eq_refl) as (_ & Hc & Hl & _).
  cbv zeta. split; [exact Hc | exact Hl].
Defined.

(** Header 13 passes the check and is not acceptable; the organizer is
    running and is not stopped meanwhile. *)
Lemma accept_failure_is_reported_witness :
  let w := Demo.header_organizer (Demo.sound 12) ∅ in
  (run Demo.quiet Demo.h13 w).1 = other_error 4
  /\ pool_ (run Demo.quiet Demo.h13 w).2 = ∅.
Proof.
  pose proof (accept_failure_is_reported Demo.quiet Demo.h13
    {| fork_point := {| cp_hash := 10; cp_height := 0 |};
       headers := [Demo.h13]; work := 5 |}
    (Demo.header_organizer (Demo.sound 12) ∅)
    eq_refl eq_refl eq_refl eq_refl) as (Hc & _ & _ & Hp & _).
  cbv zeta. split; [exact Hc | exact Hp].
Defined.

(** C8 as stated fails: the validator reports [other_error 4] for header 13,
    [stop] is called while it does, and the handler gets [service_stopped]
    instead of the validator's code. *)
Lemma accept_failure_while_stopping :
  let w := Demo.header_organizer (Demo.sound 12) ∅ in
  let b := get_branch (pool_ w) (fast_chain_ w) Demo.h13 in
  header_check Demo.h13 = success
  /\ empty b = false
  /\ header_accept (fast_chain_ w) b = other_error 4
  /\ (run Demo.stop_in_accept Demo.h13 w).1 = service_stopped
  /\ (run Demo.stop_in_accept Demo.h13 w).1 <> header_accept (fast_chain_ w) b.
Proof. cbv zeta. repeat split. vm_compute. discriminate. Qed.

(** Header 11 is acceptable and new, and the store cannot tell the work
    of its candidate chain. *)
Lemma get_work_failure_is_operation_failed_witness :
  let w := Demo.header_organizer Demo.blind ∅ in
  (run Demo.quiet Demo.h11 w).1 = operation_failed
  /\ fast_chain_ (run Demo.quiet Demo.h11 w).2 = Demo.blind
  /\ pool_ (run Demo.quiet Demo.h11 w).2 = ∅.
Proof.
  pose proof (get_work_failure_is_operation_failed Demo.quiet Demo.h11
    {| fork_point := {| cp_hash := 10; cp_height := 0 |};
       headers := [Demo.h11]; work := 5 |}
    (Demo.header_organizer Demo.blind ∅)
    eq_refl eq_refl eq_refl eq_refl eq_refl eq_refl)
    as (Hc & _ & _ & Hch & Hp).
  cbv zeta. exact (conj Hc (conj Hch Hp)).
Defined.

(** Header 11 has more work than the empty candidate chain. *)
Lemma success_means_reorganized_witness :
  let w := Demo.header_organizer (Demo.sound 0) ∅ in
  reorganize (Demo.sound 0) {| cp_hash := 10; cp_height := 0 |} [Demo.h11] =
    (success, fast_chain_ (run Demo.quiet Demo.h11 w).2)
  /\ pool_ (run Demo.quiet Demo.h11 w).2 = ∅.
Proof.
  pose proof (success_means_reorganized Demo.quiet Demo.h11
    (Demo.header_organizer (Demo.sound 0) ∅) eq_refl)
    as (_ & _ & _ & _ & _ & Hr & Hp & _).
  cbv zeta. exact (conj Hr Hp).
Defined.

(** The same header while [stop] is called during the validator's accept. *)
Lemma stop_is_final_witness :
  let w := Demo.header_organizer (Demo.sound 0) ∅ in
  (run Demo.stop_in_accept Demo.h11 w).1 = service_stopped
  /\ fast_chain_ (run Demo.stop_in_accept Demo.h11 w).2 = Demo.sound 0.
Proof.
  pose proof (stop_is_final Demo.stop_in_accept Demo.h11
    (Demo.header_organizer (Demo.sound 0) ∅) eq_refl)
    as (Hc & _ & Hs).
  cbv zeta. exact (conj (Hs eq_refl eq_refl) Hc).
Defined.

(** Header 11 would be committed by a started organizer. *)
Lemma unstarted_header_organizer_commits_nothing_witness :
  (run Demo.quiet Demo.h11 (construct (Demo.sound 0) ∅)).1 = service_stopped
  /\ fast_chain_ (run Demo.quiet Demo.h11 (construct (Demo.sound 0) ∅)).2 =
     Demo.sound 0
  /\ is_error (run Demo.quiet Demo.h11 (construct (Demo.sound 0) ∅)).1 = true.
Proof.
  pose proof (unstarted_header_organizer_commits_nothing (Demo.sound 0) ∅
    Demo.quiet Demo.h11 ltac:(constructor) ltac:(constructor))
    as (Hc & _ & _ & He & _).
  split; [reflexivity|]. split; [exact Hc | exact He].
Defined.

(** A pooled header survives the pooling of its child. *)
Lemma pool_only_grows_witness :
  let w := Demo.header_organizer (Demo.sound 12) {[ 11 := (Demo.h11, 1) ]} in
  pool_ (run Demo.quiet Demo.h12 w).2 !! 11 = Some (Demo.h11, 1).
Proof.
  pose proof (pool_only_grows Demo.quiet Demo.h12
    (Demo.header_organizer (Demo.sound 12) {[ 11 := (Demo.h11, 1) ]}))
    as [Hgrow _].
  cbv zeta. apply Hgrow. reflexivity.
Defined.

End HeaderFacts.

(** ** organize_transaction *)

Module TransactionFacts.
Import OrganizeTransaction.

(** *** The fee policy *)

Lemma sufficient_fee_no_fees (s : settings) (tx : transaction) :
  no_fees s = true -> sufficient_fee s tx = Some true.
Proof. unfold no_fees, sufficient_fee. intros ->. reflexivity. Qed.

(** With a fee configured the price is at least one satoshi, so a
    transaction that pays nothing is not accepted. *)
Lemma sufficient_fee_zero_paid (s : settings) (tx : transaction) (b : bool) :
  no_fees s = false -> fees tx = 0 ->
  sufficient_fee s tx = Some b -> b = false.
Proof.
  unfold no_fees, sufficient_fee. intros -> Hz.
  destruct (Float32.to_uint64 _) as [cast|]; [|discriminate].
  intros [= <-]. rewrite Hz. apply N.leb_gt. lia.
Qed.

(** For fees that are not negative, the sum the code casts, with its two
    guards, and the single-precision sum without them are cast to the same
    integer, where the latter is cast to one. *)
Lemma guarded_sum_cast (byte_fee sigop_fee bs ss : Float32.float) (p : N) :
  non_negative byte_fee = true ->
  non_negative sigop_fee = true ->
  Float32.to_uint64
    (Float32.add (Float32.mul byte_fee bs) (Float32.mul sigop_fee ss))
  = Some p ->
  Float32.to_uint64
    (Float32.add
       (if Float32.ltb Float32.zero byte_fee
        then Float32.mul byte_fee bs else Float32.zero)
       (if Float32.ltb Float32.zero sigop_fee
        then Float32.mul sigop_fee ss else Float32.zero))
  = Some p.
Proof.
  intros Hb Hs.
  destruct byte_fee as [sb|[]| |[] mb eb]; try discriminate Hb;
  destruct sigop_fee as [sg|[]| |[] ms es]; try discriminate Hs;
  clear Hb Hs.
  (* A product with a positive fee is the same on both sides. *)
  all: repeat match goal with
       | |- context [Float32.mul (S754_finite ?s ?m ?e) ?x] =>
         generalize (Float32.mul (S754_finite s m e) x); intro
       | |- context [Float32.mul (S754_infinity ?s) ?x] =>
         generalize (Float32.mul (S754_infinity s) x); intro
       end.
  all: unfold Float32.ltb, Float32.zero, SFltb; simpl;
       try (intros H; exact H).
  (* A fee that is a zero: its product is replaced by the literal zero. *)
  all: unfold Float32.mul, Float32.add, SFmul, SFadd.
  all: repeat match goal with
       | f : Float32.float |- _ => destruct f as [[]|?| |? ? ?]
       end.
  all: repeat match goal with b : bool |- _ => destruct b end;
       simpl; try discriminate; intros H; exact H.
Qed.

(** The comparison with zero of the code holds of the two zeros and of
    nothing else. *)
Lemma eqb_zero (f : Float32.float) :
  Float32.eqb f Float32.zero = Float32.is_zero f.
Proof. destruct f as [[]|[]| |[] m e]; reflexivity. Qed.

Lemma not_negative_leb (f : Float32.float) :
  Float32.not_negative f = true -> non_negative f = true.
Proof. destruct f as [[]|[]| |[] m e]; simpl; try discriminate; reflexivity. Qed.

(** A float that is not negative stands for a number that is not. *)
Lemma to_Q_not_negative (f : Float32.float) (q : Q) :
  Float32.not_negative f = true -> Float32.to_Q f = Some q -> (0 <= q)%Q.
Proof.
  destruct f as [sz|[]| |[] m e]; simpl; try discriminate; intros _ [= <-].
  - apply Qle_refl.
  - destruct e as [|p|p].
    + rewrite <- (Zle_Qle 0). lia.
    + rewrite <- (Zle_Qle 0). lia.
    + unfold Qle. simpl. lia.
Qed.

(** The cast of the code is the floor, where the floor is a [uint64_t]. *)
Lemma cast_is_floor (f : Float32.float) (q : Q) :
  Float32.to_Q f = Some q ->
  (0 <= Qfloor q < 2 ^ 64)%Z ->
  Float32.to_uint64 f = Some (Z.to_N (Qfloor q)).
Proof.
  destruct f as [sz|si| |sg m e]; simpl; try discriminate; intros [= <-].
  - intros _. reflexivity.
  - destruct e as [|p|p].
    + rewrite Qfloor_Z. intros Hr.
      destruct sg; [lia|]. rewrite Z.shiftl_mul_pow2 by lia.
      destruct (Z.ltb_spec (Z.pos m * 2 ^ 0) (2 ^ 64)); [reflexivity | lia].
    + rewrite Qfloor_Z. intros Hr.
      destruct sg; [lia|]. rewrite Z.shiftl_mul_pow2 by lia.
      destruct (Z.ltb_spec (Z.pos m * 2 ^ Z.pos p) (2 ^ 64));
        [reflexivity | lia].
    + change (Qfloor ((if sg then Z.neg m else Z.pos m) # 2 ^ p))
        with ((if sg then Z.neg m else Z.pos m) / Z.pos (2 ^ p))%Z.
      rewrite Pos2Z.inj_pow. intros Hr.
      destruct sg.
      * assert (Z.neg m / 2 ^ Z.pos p < 0)%Z
          by (apply Z.div_lt_upper_bound; lia).
        lia.
      * change (Z.shiftl (Z.pos m) (Z.neg p))
          with (Z.shiftr (Z.pos m) (Z.pos p)).
        rewrite Z.shiftr_div_pow2 by lia.
        destruct (Z.ltb_spec (Z.pos m / 2 ^ Z.pos p) (2 ^ 64));
          [reflexivity | lia].
Qed.

(** With fees that are not negative the exact sum is not negative. *)
Lemma exact_sum_not_negative (s : settings) (tx : transaction) (q : Q) :
  Float32.not_negative (byte_fee_satoshis s) = true ->
  Float32.not_negative (sigop_fee_satoshis s) = true ->
  exact_sum s tx = Some q -> (0 <= q)%Q.
Proof.
  intros Hb Hs. unfold exact_sum.
  destruct (Float32.to_Q (byte_fee_satoshis s)) as [qb|] eqn:Eb;
    [|discriminate].
  destruct (Float32.to_Q (sigop_fee_satoshis s)) as [qs|] eqn:Es;
    [|discriminate].
  simpl. intros [= <-].
  pose proof (to_Q_not_negative _ _ Hb Eb) as Hqb.
  pose proof (to_Q_not_negative _ _ Hs Es) as Hqs.
  assert (Hn : forall n, (0 <= inject_Z (Z.of_N n))%Q)
    by (intros n; rewrite <- (Zle_Qle 0); lia).
  match goal with |- (_ <= ?x)%Q => change (0 + 0 <= x)%Q end.
  apply Qplus_le_compat; apply Qmult_le_0_compat; auto.
Qed.

(** The price of the code, for fees that are not negative. *)
Lemma sufficient_fee_priced (s : settings) (tx : transaction) (price : N) :
  Float32.not_negative (byte_fee_satoshis s) = true ->
  Float32.not_negative (sigop_fee_satoshis s) = true ->
  Float32.is_zero (byte_fee_satoshis s)
    && Float32.is_zero (sigop_fee_satoshis s) = false ->
  single_precision_price s tx = Some price ->
  sufficient_fee s tx = Some (price <=? fees tx).
Proof.
  intros Hb Hs Hnz. unfold single_precision_price.
  destruct (Float32.to_Q (single_precision_sum s tx)) as [q|] eqn:Eq;
    [|discriminate].
  simpl.
  destruct (Z.leb_spec 0 (Qfloor q)) as [Hlo|]; [|discriminate].
  destruct (Z.ltb_spec (Qfloor q) (2 ^ 64)) as [Hhi|]; [|discriminate].
  simpl. intros [= <-].
  pose proof (cast_is_floor _ _ Eq (conj Hlo Hhi)) as Hcast.
  unfold sufficient_fee. rewrite !eqb_zero, Hnz.
  rewrite (guarded_sum_cast (byte_fee_satoshis s) (sigop_fee_satoshis s)
             (Float32.of_size_t (serialized_size tx))
             (Float32.of_size_t (signature_operations tx))
             (Z.to_N (Qfloor q))
             (not_negative_leb _ Hb) (not_negative_leb _ Hs) Hcast).
  rewrite Z2N.inj_max. reflexivity.
Qed.

(** C7, as the code has it.  With fees that are not negative: when both
    fees are zero every transaction is accepted.  Otherwise a transaction
    is accepted if and only if its fees are at least max(1, floor(S)),
    where S is byte_fee * size + sigop_fee * sigops as single precision
    evaluates it, the counts converted, each product and then the sum
    rounded to nearest even, and the floor a [uint64_t]; a transaction that
    pays exactly this price is accepted, and with any fee configured one
    that pays nothing is rejected.  Where the rounded sum is the exact sum,
    the price is the one of the specification and the policy decides as the
    specification says. *)
Theorem sufficient_fee_in_single_precision (s : settings)
    (tx : transaction) :
  Float32.not_negative (byte_fee_satoshis s) = true ->
  Float32.not_negative (sigop_fee_satoshis s) = true ->
  (Float32.is_zero (byte_fee_satoshis s) = true ->
   Float32.is_zero (sigop_fee_satoshis s) = true ->
   sufficient_fee s tx = Some true)
  /\ (Float32.is_zero (byte_fee_satoshis s)
        && Float32.is_zero (sigop_fee_satoshis s) = false ->
      (forall price, single_precision_price s tx = Some price ->
         sufficient_fee s tx = Some (price <=? fees tx)
         /\ (sufficient_fee s tx = Some true <-> price <= fees tx)
         /\ (fees tx = price -> sufficient_fee s tx = Some true)
         /\ (fees tx = 0 -> sufficient_fee s tx = Some false))
      /\ (fees tx = 0 -> sufficient_fee s tx <> Some true)
      /\ (forall q q',
            Float32.to_Q (single_precision_sum s tx) = Some q ->
            exact_sum s tx = Some q' ->
            (q == q')%Q ->
            (Qfloor q < 2 ^ 64)%Z ->
            single_precision_price s tx = specified_price s tx
            /\ sufficient_fee s tx = specified_sufficient_fee s tx)).
Proof.
  intros Hb Hs. split.
  { intros Zb Zs. unfold sufficient_fee. rewrite !eqb_zero, Zb, Zs.
    reflexivity. }
  intros Hnz.
  assert (Hfee : no_fees s = false)
    by (unfold no_fees; rewrite !eqb_zero; exact Hnz).
  assert (Hzero : forall b, fees tx = 0 -> sufficient_fee s tx = Some b ->
                            b = false)
    by (intros b; apply sufficient_fee_zero_paid; exact Hfee).
  split; [|split].
  - intros price Hprice.
    pose proof (sufficient_fee_priced s tx price Hb Hs Hnz Hprice) as Hcode.
    split; [exact Hcode|]. split; [|split].
    + rewrite Hcode. split.
      * intros [= H]. apply N.leb_le. exact H.
      * intros H. apply N.leb_le in H. rewrite H. reflexivity.
    + intros E. rewrite Hcode, E, N.leb_refl. reflexivity.
    + intros Hz. rewrite Hcode. f_equal. exact (Hzero _ Hz Hcode).
  - intros Hz Hacc. discriminate (Hzero true Hz Hacc).
  - intros q q' Eq Eq' Hqq Hlt.
    assert (Hprice : single_precision_price s tx = specified_price s tx).
    { unfold single_precision_price, specified_price.
      rewrite Eq, Eq'. simpl.
      pose proof (exact_sum_not_negative s tx q' Hb Hs Eq') as Hq'.
      rewrite (Qfloor_comp _ _ Hqq) in Hlt |- *.
      apply Qfloor_resp_le in Hq'. change (Qfloor 0) with 0%Z in Hq'.
      destruct (Z.leb_spec 0 (Qfloor q')); [|lia].
      destruct (Z.ltb_spec (Qfloor q') (2 ^ 64)); [|lia].
      reflexivity. }
    split; [exact Hprice|].
    unfold specified_sufficient_fee. rewrite Hnz, <- Hprice.
    destruct (single_precision_price s tx) as [price|] eqn:Ep.
    + simpl. exact (sufficient_fee_priced s tx price Hb Hs Hnz Ep).
    + unfold specified_price in Hprice. rewrite Eq' in Hprice.
      discriminate Hprice.
Qed.

(** No fee configured: the unpaid transaction is accepted.  Half a satoshi
    per byte: three bytes cost 1.5, priced 1, which a transaction paying 1
    meets.  0.7f per byte (11744051 * 2^-24): 250 bytes are priced 175, so
    174 is refused and 175 accepted.  One satoshi per byte and a hundred
    per signature operation: nothing is rounded, the price is the
    specified 450, and [tx1] pays it exactly. *)
Lemma sufficient_fee_in_single_precision_witness :
  sufficient_fee Demo.free_policy Demo.tx_unpaid = Some true
  /\ sufficient_fee Demo.half_policy (Demo.sized_tx 3 1) = Some true
  /\ sufficient_fee Demo.odd_policy (Demo.sized_tx 250 174) = Some false
  /\ sufficient_fee Demo.odd_policy (Demo.sized_tx 250 175) = Some true
  /\ sufficient_fee Demo.priced_policy Demo.tx_unpaid = Some false
  /\ specified_price Demo.priced_policy Demo.tx1 = Some 450
  /\ sufficient_fee Demo.priced_policy Demo.tx1 =
     specified_sufficient_fee Demo.priced_policy Demo.tx1.
Proof.
  destruct (sufficient_fee_in_single_precision Demo.free_policy
              Demo.tx_unpaid eq_refl eq_refl) as [Hfree _].
  destruct (sufficient_fee_in_single_precision Demo.half_policy
              (Demo.sized_tx 3 1) eq_refl eq_refl) as [_ Hhalf].
  destruct (Hhalf eq_refl) as (Hhalf1 & _).
  destruct (Hhalf1 1 eq_refl) as (_ & _ & Hhalf2 & _).
  destruct (sufficient_fee_in_single_precision Demo.odd_policy
              (Demo.sized_tx 250 174) eq_refl eq_refl) as [_ Hodd].
  destruct (Hodd eq_refl) as (Hodd1 & _).
  destruct (Hodd1 175 eq_refl) as (Hodd2 & _).
  destruct (sufficient_fee_in_single_precision Demo.odd_policy
              (Demo.sized_tx 250 175) eq_refl eq_refl) as [_ Hodd'].
  destruct (Hodd' eq_refl) as (Hodd1' & _).
  destruct (Hodd1' 175 eq_refl) as (_ & _ & Hodd2' & _).
  destruct (sufficient_fee_in_single_precision Demo.priced_policy
              Demo.tx_unpaid eq_refl eq_refl) as [_ Hunpaid].
  destruct (Hunpaid eq_refl) as (Hunpaid1 & _).
  destruct (Hunpaid1 450 eq_refl) as (_ & _ & _ & Hunpaid2).
  destruct (sufficient_fee_in_single_precision Demo.priced_policy
              Demo.tx1 eq_refl eq_refl) as [_ Hpriced].
  destruct (Hpriced eq_refl) as (_ & _ & Hexact).
  destruct (Hexact _ _ eq_refl eq_refl ltac:(reflexivity)
              ltac:(reflexivity)) as [Hprice Hsame].
  refine (conj (Hfree eq_refl eq_refl)
            (conj (Hhalf2 eq_refl)
               (conj Hodd2
                  (conj (Hodd2' eq_refl)
                     (conj (Hunpaid2 eq_refl)
                        (conj _ Hsame)))))).
  rewrite <- Hprice. reflexivity.
Defined.

(** C7 as stated fails: at 0.7f satoshis per byte (11744051 * 2^-24) a
    transaction of 250 bytes has the exact sum 174.99999701976776 and the
    specified price 174; it pays 174, which the specification accepts.  The
    product is rounded to 175 in single precision, the code prices the
    transaction 175 and refuses it. *)
Lemma exact_price_is_refused :
  Float32.not_negative (byte_fee_satoshis Demo.odd_policy) = true
  /\ Float32.not_negative (sigop_fee_satoshis Demo.odd_policy) = true
  /\ exact_sum Demo.odd_policy (Demo.sized_tx 250 174) =
       Some ((11744051 # 2 ^ 24) * inject_Z 250 + 0 * inject_Z 0)%Q
  /\ specified_price Demo.odd_policy (Demo.sized_tx 250 174) = Some 174
  /\ fees (Demo.sized_tx 250 174) = 174
  /\ specified_sufficient_fee Demo.odd_policy (Demo.sized_tx 250 174) =
       Some true
  /\ sufficient_fee Demo.odd_policy (Demo.sized_tx 250 174) = Some false.
Proof. repeat split. Qed.

(** A negative fee is left out of the sum by the guard of the code, where
    the formula of the specification subtracts it. *)
Example negative_fee_is_ignored :
  let s := {| byte_fee_satoshis := S754_finite true 1 0;
              sigop_fee_satoshis := Float32.lit 2 0;
              minimum_output_satoshis := 0 |} in
  let tx := {| tx_hash := 1; serialized_size := 100;
               signature_operations := 10; fees := 5;
               output_values := [] |} in
  sufficient_fee s tx = Some false
  /\ specified_sufficient_fee s tx = Some true.
Proof. split; reflexivity. Qed.

(** X16. The policy looks at the size, the signature operations and the fees
    of a transaction only, and is monotone in the fees: a transaction that
    pays at least as much as an accepted one of the same size and signature
    operations is accepted. *)
Theorem sufficient_fee_monotone (s : settings) (tx tx' : transaction) :
  serialized_size tx' = serialized_size tx ->
  signature_operations tx' = signature_operations tx ->
  fees tx <= fees tx' ->
  sufficient_fee s tx = Some true ->
  sufficient_fee s tx' = Some true.
Proof.
  intros Hsize Hsig Hle. unfold sufficient_fee. rewrite Hsize, Hsig.
  destruct (_ && _); [intros _; reflexivity|].
  destruct (Float32.to_uint64 _) as [cast|]; [|discriminate].
  intros [= H]. apply N.leb_le in H. f_equal. apply N.leb_le. lia.
Qed.

Lemma sufficient_fee_monotone_witness :
  sufficient_fee Demo.priced_policy (Demo.mk_tx 104 451) = Some true.
Proof.
  apply (sufficient_fee_monotone Demo.priced_policy Demo.tx1
           (Demo.mk_tx 104 451) eq_refl eq_refl); [|reflexivity].
  vm_compute. discriminate.
Defined.

(** X17. With fees configured of which none is positive (negative fees, or one
    of them zero or not a number), the guards leave nothing to sum and the
    price is the minimum of one satoshi. *)
Theorem no_positive_fee_costs_one_satoshi (s : settings) (tx : transaction) :
  no_fees s = false ->
  Float32.ltb Float32.zero (byte_fee_satoshis s) = false ->
  Float32.ltb Float32.zero (sigop_fee_satoshis s) = false ->
  sufficient_fee s tx = Some (1 <=? fees tx).
Proof.
  unfold no_fees, sufficient_fee. intros -> -> ->. reflexivity.
Qed.

Lemma no_positive_fee_costs_one_satoshi_witness :
  let s := {| byte_fee_satoshis := SFopp (Float32.lit 3 0);
              sigop_fee_satoshis := Float32.zero;
              minimum_output_satoshis := 0 |} in
  sufficient_fee s Demo.tx_unpaid = Some false
  /\ sufficient_fee s (Demo.mk_tx 105 1) = Some true.
Proof.
  cbv zeta. split.
  - apply (no_positive_fee_costs_one_satoshi _ Demo.tx_unpaid);
      reflexivity.
  - apply (no_positive_fee_costs_one_satoshi _ (Demo.mk_tx 105 1));
      reflexivity.
Defined.

Section Facts.

Context {chain pool : Type} `{!FastChain chain, !TransactionValidator chain,
  !TransactionPool pool}.

Local Abbreviation state := (state chain pool).

(** [start] and [stop] write the two flags and nothing else. *)
Lemma tx_interfere_eq (cs : list control) (w : state) :
  interfere cs w =
  {| fast_chain_ := fast_chain_ w; mutex_ := mutex_ w;
     stopped_ := flag_after cs (stopped_ w); resume_ := resume_ w;
     settings_ := settings_ w; pool_ := pool_ w;
     validator_stopped := flag_after cs (validator_stopped w);
     log := log w |}.
Proof.
  revert w. induction cs as [|c cs IH]; intros w.
  - destruct w; reflexivity.
  - unfold interfere in *. simpl. rewrite IH. destruct c; reflexivity.
Qed.

Lemma tx_since_app (w w' : state) (evs : list event) :
  log w' = log w ++ evs -> since w w' = evs.
Proof. intros E. unfold since. rewrite E. apply drop_app_length. Qed.

Ltac unfold_pipeline :=
  unfold run, organize, validator_accept, handle_accept, validator_connect,
    handle_connect, signal_completion, lock_low_priority,
    unlock_low_priority, stopped;
  repeat (rewrite ?tx_interfere_eq; simpl).

(** The pipeline calls its handler at most once: whatever the handler is,
    the call is that handler applied to the code and the state that [run]
    returns, when [run] returns. *)
Lemma tx_organize_run {R} (sched : schedule) (tx : transaction)
    (handler : result_handler R) (max_money : N) (w : state) :
  organize sched tx handler max_money w =
  match run sched tx max_money w with
  | Some (ec, w') => handler ec w'
  | None => None
  end.
Proof.
  unfold run, organize.
  destruct (is_error _); [reflexivity|].
  destruct (stopped _); [reflexivity|].
  destruct (transaction_pool_exists _ _); [reflexivity|].
  destruct (validator_accept _ _ _ _) as [w1|]; simpl; [|reflexivity].
  destruct (resume_ _); reflexivity.
Qed.

(** Case analysis of a run that returned: every test of the pipeline is
    decided, and the hypothesis becomes the equation of the result. *)
Ltac decide_run H :=
  unfold run, organize, validator_accept, handle_accept, validator_connect,
    handle_connect, signal_completion, lock_low_priority,
    unlock_low_priority, stopped in H;
  repeat (rewrite ?tx_interfere_eq in H; simpl in H;
          match type of H with
          | context [if ?b then _ else _] =>
            let E := fresh "E" in destruct b eqn:E
          | context [match ?x with _ => _ end] =>
            let E := fresh "E" in destruct x eqn:E
          end);
  rewrite ?tx_interfere_eq in H; simpl in H;
  try discriminate H;
  try (injection H as <- <-).

(** [organize] never writes the transaction pool or the settings. *)
Lemma run_pool (sched : schedule) (tx : transaction) (max_money : N)
    (w w' : state) (c : code) :
  run sched tx max_money w = Some (c, w') ->
  pool_ w' = pool_ w /\ settings_ w' = settings_ w.
Proof. intros Hrun. decide_run Hrun; split; reflexivity. Qed.

(** An admitted transaction has been stored, and the pool that did not hold
    it before the call does not hold it after. *)
Lemma admitted_leaves_pool (sched : schedule) (tx : transaction)
    (max_money : N) (w w' : state) :
  run sched tx max_money w = Some (success, w') ->
  pool_ w' = pool_ w
  /\ transaction_pool_exists (pool_ w') tx = false
  /\ store (fast_chain_ w) tx = (success, fast_chain_ w').
Proof.
  intros Hrun. remember success as c eqn:Hc.
  decide_run Hrun; simpl in *; try discriminate Hc;
    try match goal with
        | Hx : is_error ?x = true, Hy : ?x = success |- _ =>
          rewrite Hy in Hx; discriminate Hx
        end;
    subst; repeat split; auto.
Qed.

Ltac since_eval :=
  unfold since; simpl; rewrite <- ?app_assoc; simpl;
  rewrite ?drop_app_length; simpl.

Lemma tx_handler_calls_app (evs evs' : list event) :
  handler_calls (evs ++ evs') = (handler_calls evs + handler_calls evs')%nat.
Proof.
  induction evs as [|e evs IH]; [reflexivity|].
  destruct e; simpl; rewrite IH; reflexivity.
Qed.

Lemma tx_handler_after_release (held : bool) (evs : list event) (c : code) :
  handler_calls evs = 0%nat ->
  holds_mutex held evs = false ->
  handler_outside_lock held (evs ++ [ev_handler c]) = true.
Proof.
  revert held. induction evs as [|e evs IH]; intros held Hn Hm.
  - simpl in *. rewrite Hm. reflexivity.
  - destruct e; simpl in *; try discriminate Hn; apply IH; assumption.
Qed.

(** The pipeline returns whenever the fee policy is defined: the promise
    is satisfied exactly once on every path through the callbacks. *)
Lemma run_returns (sched : schedule) (tx : transaction) (max_money : N)
    (w : state) :
  is_Some (sufficient_fee (settings_ w) tx) ->
  is_Some (run sched tx max_money w).
Proof.
  intros [fee Hfee].
  destruct (run sched tx max_money w) as [[c w']|] eqn:Hrun; [eauto|].
  exfalso. decide_run Hrun; congruence.
Qed.

Lemma tx_run_discipline (sched : schedule) (tx : transaction) (max_money : N)
    (w w' : state) (c : code) :
  run sched tx max_money w = Some (c, w') ->
  log w' = log w ++ since w w'
  /\ handler_calls (since w w') = 0%nat
  /\ holds_mutex false (since w w') = false
  /\ (existsb is_lock (since w w') = true -> mutex_ w' = unlocked).
Proof.
  intros Hrun.
  decide_run Hrun; since_eval; repeat split; intros; congruence.
Qed.

Lemma tx_since_emit (w w' : state) (e : event) (evs : list event) :
  log w' = log w ++ evs -> since w (emit e w') = evs ++ [e].
Proof.
  intros E. apply tx_since_app. simpl. rewrite E, <- app_assoc. reflexivity.
Qed.

Lemma tx_holds_mutex_handler (held : bool) (evs : list event) (c : code) :
  holds_mutex held (evs ++ [ev_handler c]) = holds_mutex held evs.
Proof.
  revert held. induction evs as [|e evs IH]; intros held; [reflexivity|].
  destruct e; simpl; apply IH.
Qed.

(** With the logging handler: one handler call, made with the mutex free. *)
Lemma tx_organize_notify (sched : schedule) (tx : transaction) (max_money : N)
    (w w' : state) (c : code) :
  run sched tx max_money w = Some (c, w') ->
  organize sched tx notify max_money w = Some (emit (ev_handler c) w')
  /\ handler_calls (since w (emit (ev_handler c) w')) = 1%nat
  /\ handler_outside_lock false (since w (emit (ev_handler c) w')) = true
  /\ holds_mutex false (since w (emit (ev_handler c) w')) = false.
Proof.
  intros Hrun. rewrite tx_organize_run, Hrun. unfold notify.
  destruct (tx_run_discipline sched tx max_money w w' c Hrun)
    as (Hlog & Hn & Hm & _).
  rewrite (tx_since_emit _ _ _ _ Hlog).
  split; [reflexivity|]. split; [|split].
  - rewrite tx_handler_calls_app, Hn. reflexivity.
  - apply tx_handler_after_release; assumption.
  - rewrite tx_holds_mutex_handler. exact Hm.
Qed.


Lemma tx_run_check_failure (sched : schedule) (tx : transaction) (max_money : N)
    (w : state) :
  is_error (tx_check tx max_money) = true ->
  run sched tx max_money w =
  Some (tx_check tx max_money, emit (ev_check tx max_money) w).
Proof. intros Hc. unfold run, organize. rewrite Hc. reflexivity. Qed.

Lemma run_stopped_at_entry (sched : schedule) (tx : transaction)
    (max_money : N) (w : state) :
  tx_check tx max_money = success ->
  stopped_at_entry sched w = true ->
  run sched tx max_money w =
  Some (service_stopped,
        {| fast_chain_ := fast_chain_ w; mutex_ := unlocked;
           stopped_ := true; resume_ := resume_ w;
           settings_ := settings_ w; pool_ := pool_ w;
           validator_stopped :=
             flag_after (while_locking sched) (validator_stopped w);
           log := log w ++ [ev_check tx max_money; ev_lock_low_priority;
                            ev_unlock_low_priority] |}).
Proof.
  intros Hc Hs. unfold stopped_at_entry in Hs.
  unfold run, organize, lock_low_priority, unlock_low_priority, stopped.
  rewrite Hc, tx_interfere_eq. simpl. rewrite Hs. unfold emit, set_mutex. simpl.
  rewrite <- ?app_assoc. reflexivity.
Qed.

Lemma tx_handle_accept_stopped {R} (sched : schedule) (ec : code)
    (tx : transaction) (handler : result_handler R) (w : state) :
  stopped w = true ->
  handle_accept sched ec tx handler w = handler service_stopped w.
Proof. intros Hs. unfold handle_accept. rewrite Hs. reflexivity. Qed.

Lemma handle_connect_stopped {R} (ec : code) (tx : transaction)
    (handler : result_handler R) (w : state) :
  stopped w = true ->
  handle_connect ec tx handler w = handler service_stopped w.
Proof. intros Hs. unfold handle_connect. rewrite Hs. reflexivity. Qed.

(** A run that finds the organizer stopped at the accept or at the connect
    continuation delivers [service_stopped] and writes nothing. *)
Lemma tx_run_stopped (sched : schedule) (tx : transaction) (max_money : N)
    (w w' : state) (c : code) :
  tx_check tx max_money = success ->
  stopped_at_entry sched w = false ->
  transaction_pool_exists (pool_ w) tx = false ->
  stopped_at_accept sched w = true
  \/ (tx_accept (fast_chain_ w) tx = success
      /\ sufficient_fee (settings_ w) tx = Some true
      /\ is_dusty tx (minimum_output_satoshis (settings_ w)) = false
      /\ stopped_at_connect sched w = true) ->
  run sched tx max_money w = Some (c, w') ->
  c = service_stopped
  /\ fast_chain_ w' = fast_chain_ w
  /\ existsb is_store (since w w') = false.
Proof.
  unfold stopped_at_connect, stopped_at_accept, stopped_at_entry.
  intros Hc He Hp Hs Hrun.
  decide_run Hrun; since_eval; simpl in *;
    try (rewrite Hc in *; discriminate);
    try (destruct Hs as [Hs|(Ha & Hf & Hd & Hs)];
         try rewrite Ha in *; simpl in *; congruence);
    repeat split.
Qed.

Lemma run_stopped_at_accept (sched : schedule) (tx : transaction)
    (max_money : N) (w : state) :
  tx_check tx max_money = success ->
  stopped_at_entry sched w = false ->
  transaction_pool_exists (pool_ w) tx = false ->
  stopped_at_accept sched w = true ->
  exists w', run sched tx max_money w = Some (service_stopped, w')
    /\ fast_chain_ w' = fast_chain_ w
    /\ since w w' =
         [ev_check tx max_money; ev_lock_low_priority; ev_exists tx;
          ev_reset_promise; ev_accept tx; ev_set_value service_stopped;
          ev_future_get; ev_unlock_low_priority].
Proof.
  unfold stopped_at_accept, stopped_at_entry. intros Hc He Hp Hs.
  destruct (run sched tx max_money w) as [[c w']|] eqn:Hrun.
  - exists w'.
    decide_run Hrun; since_eval; try congruence;
      try (rewrite Hc in *; discriminate).
    repeat split.
  - exfalso. decide_run Hrun; congruence.
Qed.

(** *** Further properties of the transaction pipeline *)

Ltac clash :=
  try congruence;
  try match goal with
      | Hx : is_error ?x = true, Hy : ?x = success |- _ =>
        rewrite Hy in Hx; discriminate Hx
      end.

(** X8. A transaction that the pool already holds is answered with
    [duplicate_transaction]: the mutex is released, and neither the promise,
    the validator nor the store is touched. *)
Theorem pooled_transaction_is_duplicate (sched : schedule) (tx : transaction)
    (max_money : N) (w : state) :
  tx_check tx max_money = success ->
  stopped_at_entry sched w = false ->
  transaction_pool_exists (pool_ w) tx = true ->
  exists w', run sched tx max_money w = Some (duplicate_transaction, w')
    /\ since w w' =
         [ev_check tx max_money; ev_lock_low_priority; ev_exists tx;
          ev_unlock_low_priority]
    /\ mutex_ w' = unlocked
    /\ fast_chain_ w' = fast_chain_ w
    /\ resume_ w' = resume_ w.
Proof.
  unfold stopped_at_entry. intros Hc He Hp.
  destruct (run sched tx max_money w) as [[c w']|] eqn:Hrun.
  - exists w'. decide_run Hrun; since_eval; clash; repeat split.
  - exfalso. decide_run Hrun; clash.
Qed.

(** X9. The fee policy is applied before the dust policy and both before the
    validator's connect: an accepted transaction that does not pay the
    price is answered with [insufficient_fee] whether or not it is dusty,
    one that pays and is dusty with [dusty_transaction]; in both cases
    neither [connect] nor [store] is called. *)
Theorem policy_rejections (sched : schedule) (tx : transaction)
    (max_money : N) (w : state) :
  tx_check tx max_money = success ->
  stopped_at_entry sched w = false ->
  transaction_pool_exists (pool_ w) tx = false ->
  stopped_at_accept sched w = false ->
  tx_accept (fast_chain_ w) tx = success ->
  (sufficient_fee (settings_ w) tx = Some false ->
   exists w', run sched tx max_money w = Some (insufficient_fee, w')
     /\ since w w' =
          [ev_check tx max_money; ev_lock_low_priority; ev_exists tx;
           ev_reset_promise; ev_accept tx; ev_set_value insufficient_fee;
           ev_future_get; ev_unlock_low_priority]
     /\ fast_chain_ w' = fast_chain_ w)
  /\ (sufficient_fee (settings_ w) tx = Some true ->
      is_dusty tx (minimum_output_satoshis (settings_ w)) = true ->
      exists w', run sched tx max_money w = Some (dusty_transaction, w')
        /\ since w w' =
             [ev_check tx max_money; ev_lock_low_priority; ev_exists tx;
              ev_reset_promise; ev_accept tx; ev_set_value dusty_transaction;
              ev_future_get; ev_unlock_low_priority]
        /\ fast_chain_ w' = fast_chain_ w).
Proof.
  unfold stopped_at_accept, stopped_at_entry. intros Hc He Hp Hs Ha. split.
  - intros Hfee.
    destruct (run sched tx max_money w) as [[c w']|] eqn:Hrun.
    + exists w'. decide_run Hrun; since_eval; clash; repeat split.
    + exfalso. decide_run Hrun; clash.
  - intros Hfee Hdust.
    destruct (run sched tx max_money w) as [[c w']|] eqn:Hrun.
    + exists w'. decide_run Hrun; since_eval; clash; repeat split.
    + exfalso. decide_run Hrun; clash.
Qed.

(** X10. An error of the validator is what the handler receives, when the
    organizer is not stopped: an error of [accept] ends the run before the
    policies, an error of [connect] ends it before [store]. *)
Theorem validator_errors_are_reported (sched : schedule) (tx : transaction)
    (max_money : N) (w : state) :
  tx_check tx max_money = success ->
  stopped_at_entry sched w = false ->
  transaction_pool_exists (pool_ w) tx = false ->
  stopped_at_accept sched w = false ->
  (is_error (tx_accept (fast_chain_ w) tx) = true ->
   exists w',
     run sched tx max_money w = Some (tx_accept (fast_chain_ w) tx, w')
     /\ since w w' =
          [ev_check tx max_money; ev_lock_low_priority; ev_exists tx;
           ev_reset_promise; ev_accept tx;
           ev_set_value (tx_accept (fast_chain_ w) tx);
           ev_future_get; ev_unlock_low_priority]
     /\ fast_chain_ w' = fast_chain_ w)
  /\ (tx_accept (fast_chain_ w) tx = success ->
      sufficient_fee (settings_ w) tx = Some true ->
      is_dusty tx (minimum_output_satoshis (settings_ w)) = false ->
      stopped_at_connect sched w = false ->
      is_error (tx_connect (fast_chain_ w) tx) = true ->
      exists w',
        run sched tx max_money w = Some (tx_connect (fast_chain_ w) tx, w')
        /\ since w w' =
             [ev_check tx max_money; ev_lock_low_priority; ev_exists tx;
              ev_reset_promise; ev_accept tx; ev_connect tx;
              ev_set_value (tx_connect (fast_chain_ w) tx);
              ev_future_get; ev_unlock_low_priority]
        /\ fast_chain_ w' = fast_chain_ w).
Proof.
  unfold stopped_at_connect, stopped_at_accept, stopped_at_entry.
  intros Hc He Hp Hs. split.
  - intros Ha.
    destruct (run sched tx max_money w) as [[c w']|] eqn:Hrun.
    + exists w'. decide_run Hrun; since_eval; clash; repeat split.
    + exfalso. decide_run Hrun; clash.
  - intros Ha Hfee Hdust Hs' Hcon.
    destruct (run sched tx max_money w) as [[c w']|] eqn:Hrun.
    + exists w'. decide_run Hrun; since_eval; clash; repeat split.
    + exfalso. decide_run Hrun; clash.
Qed.

(** X11. A handler that receives [success] has had its transaction stored: the
    check, the validator's accept and connect and both policies passed, the
    pool did not hold the transaction, the organizer was not stopped at any
    of its three tests, and [store] returned [success] with the store the
    run ends in. *)
Theorem success_means_stored (sched : schedule) (tx : transaction)
    (max_money : N) (w w' : state) :
  run sched tx max_money w = Some (success, w') ->
  tx_check tx max_money = success
  /\ stopped_at_entry sched w = false
  /\ transaction_pool_exists (pool_ w) tx = false
  /\ stopped_at_accept sched w = false
  /\ tx_accept (fast_chain_ w) tx = success
  /\ sufficient_fee (settings_ w) tx = Some true
  /\ is_dusty tx (minimum_output_satoshis (settings_ w)) = false
  /\ stopped_at_connect sched w = false
  /\ tx_connect (fast_chain_ w) tx = success
  /\ store (fast_chain_ w) tx = (success, fast_chain_ w')
  /\ existsb is_log_fatal (since w w') = false.
Proof.
  unfold stopped_at_connect, stopped_at_accept, stopped_at_entry.
  intros Hrun. remember success as c eqn:Hc.
  decide_run Hrun; since_eval; simpl in *; try discriminate Hc; clash.
  subst.
  repeat match goal with
         | Hx : is_error _ = false |- _ => apply is_error_false in Hx
         end.
  repeat match goal with |- _ /\ _ => split end; auto.
Qed.

(** X12. The promise carries the code: a run that has reset the promise sets
    its value exactly once, to the code that the caller's handler then
    receives, and the promise still holds that code afterwards; a run that
    ends before the reset does not touch the promise. *)
Theorem promise_carries_the_code (sched : schedule) (tx : transaction)
    (max_money : N) (w w' : state) (c : code) :
  run sched tx max_money w = Some (c, w') ->
  (existsb is_reset_promise (since w w') = true ->
   count_events is_set_value (since w w') = 1%nat
   /\ In (ev_set_value c) (since w w')
   /\ resume_ w' = Some c)
  /\ (existsb is_reset_promise (since w w') = false ->
      count_events is_set_value (since w w') = 0%nat
      /\ resume_ w' = resume_ w).
Proof.
  intros Hrun.
  decide_run Hrun; since_eval; split; intros Hr; try discriminate Hr;
    simpl; repeat split; tauto.
Qed.

(** X14. Every run keeps to the critical section: the check runs before the
    mutex is taken, the mutex is locked at most once and released when it
    was, and the pool, the promise, the validator and the store are reached
    only while it is held. *)
Theorem tx_accesses_inside_critical_section (sched : schedule)
    (tx : transaction) (max_money : N) (w w' : state) (c : code) :
  run sched tx max_money w = Some (c, w') ->
  inside_critical_section false (since w w') = true
  /\ (count_events is_lock (since w w') <= 1)%nat.
Proof.
  intros Hrun.
  decide_run Hrun; since_eval; split; solve [reflexivity | lia].
Qed.

(** X15. [store] is called at most once, and only after the validator has
    accepted and connected the transaction: in the log of a run every call
    of connect comes after a call of accept and every call of [store] after
    a call of connect, and a run that calls [store] has logged the check,
    the lock, the pool lookup, the reset of the promise, accept, connect and
    [store] in this order, with both validator calls reporting [success].
    The fatal log entry is written exactly when [store] was called and the
    handler receives an error. *)
Theorem store_follows_connect (sched : schedule) (tx : transaction)
    (max_money : N) (w w' : state) (c : code) :
  run sched tx max_money w = Some (c, w') ->
  (count_events is_store (since w w') <= 1)%nat
  /\ stages_in_order false false (since w w') = true
  /\ (existsb is_store (since w w') = true ->
      existsb is_accept (since w w') = true
      /\ existsb is_connect (since w w') = true
      /\ tx_accept (fast_chain_ w) tx = success
      /\ tx_connect (fast_chain_ w) tx = success
      /\ exists rest,
           since w w' =
             [ev_check tx max_money; ev_lock_low_priority; ev_exists tx;
              ev_reset_promise; ev_accept tx; ev_connect tx; ev_store tx]
             ++ rest)
  /\ existsb is_log_fatal (since w w') =
     existsb is_store (since w w') && is_error c.
Proof.
  intros Hrun.
  decide_run Hrun; since_eval;
    (split; [lia|]; split; [reflexivity|]; split;
     [intros Hs;
      first
        [ discriminate Hs
        | repeat match goal with
                 | H : is_error _ = false |- _ => apply is_error_false in H
                 end;
          split; [reflexivity|]; split; [reflexivity|];
          split; [assumption|]; split; [assumption|];
          eexists; reflexivity ]
     |try reflexivity; simpl; congruence]).
Qed.

(** X19. A transaction organizer is constructed stopped, and until
    [start] is called it admits nothing: a transaction that passes the check
    is answered with [service_stopped] after the mutex has been taken and
    released, and the pool, the validator and the store are not consulted. *)
Theorem unstarted_transaction_organizer_admits_nothing (c : chain)
    (p : pool) (s : settings) (sched : schedule) (tx : transaction)
    (max_money : N) :
  Forall (eq ctl_stop) (while_locking sched) ->
  tx_check tx max_money = success ->
  exists w',
    run sched tx max_money (construct c p s) = Some (service_stopped, w')
    /\ log w' =
         [ev_check tx max_money; ev_lock_low_priority;
          ev_unlock_low_priority]
    /\ fast_chain_ w' = c
    /\ pool_ w' = p.
Proof.
  intros Hl Hc.
  assert (Hs : stopped_at_entry sched (construct c p s) = true).
  { unfold stopped_at_entry. simpl. apply flag_after_only_stops, Hl. }
  rewrite (run_stopped_at_entry sched tx max_money _ Hc Hs).
  eexists. split; [reflexivity|]. repeat split.
Qed.

(** X13. The promise is reusable: what it holds when [organize] is called, a
    value left by an earlier call or none, has no influence on whether the
    run returns and on the code the handler receives. *)
Theorem promise_is_reusable (sched : schedule) (tx : transaction)
    (max_money : N) (r : option code) (w : state) :
  fst <$> run sched tx max_money (set_resume r w) =
  fst <$> run sched tx max_money w.
Proof.
  destruct (run sched tx max_money (set_resume r w)) as [[c1 w1]|] eqn:H1;
    destruct (run sched tx max_money w) as [[c2 w2]|] eqn:H2; simpl.
  all: decide_run H1; decide_run H2; clash; reflexivity.
Qed.

End Facts.

Lemma unstarted_transaction_organizer_admits_nothing_witness :
  exists w',
    run Demo.calm Demo.tx1 Demo.max_money
      (construct (Demo.sound 0) (∅ : gset N) Demo.priced_policy)
    = Some (service_stopped, w')
    /\ fast_chain_ w' = Demo.sound 0.
Proof.
  pose proof (unstarted_transaction_organizer_admits_nothing (Demo.sound 0)
                (∅ : gset N) Demo.priced_policy Demo.calm Demo.tx1
                Demo.max_money) as H.
  destruct (H ltac:(constructor) eq_refl) as (w' & Hrun & _ & Hc & _).
  exists w'. split; [exact Hrun | exact Hc].
Defined.

Lemma pooled_transaction_is_duplicate_witness :
  exists w',
    run Demo.calm Demo.tx1 Demo.max_money
      (Demo.transaction_organizer (Demo.sound 0) {[ 101 ]} Demo.priced_policy)
    = Some (duplicate_transaction, w')
    /\ fast_chain_ w' = Demo.sound 0.
Proof.
  pose proof (pooled_transaction_is_duplicate Demo.calm Demo.tx1
                Demo.max_money
                (Demo.transaction_organizer (Demo.sound 0) {[ 101 ]}
                   Demo.priced_policy)) as H.
  destruct (H eq_refl eq_refl eq_refl) as (w' & Hrun & _ & _ & Hc & _).
  exists w'. split; [exact Hrun | exact Hc].
Defined.

(** The unpaid transaction is refused for its fee; the paid one with a
    small output for its dust. *)
Lemma policy_rejections_witness :
  (exists w',
     run Demo.calm Demo.tx_unpaid Demo.max_money
       (Demo.transaction_organizer (Demo.sound 0) ∅ Demo.priced_policy)
     = Some (insufficient_fee, w'))
  /\ (exists w',
        run Demo.calm Demo.tx_dusty Demo.max_money
          (Demo.transaction_organizer (Demo.sound 0) ∅ Demo.priced_policy)
        = Some (dusty_transaction, w')).
Proof.
  split.
  - pose proof (policy_rejections Demo.calm Demo.tx_unpaid Demo.max_money
                  (Demo.transaction_organizer (Demo.sound 0) ∅
                     Demo.priced_policy)) as H.
    destruct (H eq_refl eq_refl eq_refl eq_refl eq_refl) as [Hfee _].
    destruct (Hfee eq_refl) as (w' & Hrun & _). exists w'. exact Hrun.
  - pose proof (policy_rejections Demo.calm Demo.tx_dusty Demo.max_money
                  (Demo.transaction_organizer (Demo.sound 0) ∅
                     Demo.priced_policy)) as H.
    destruct (H eq_refl eq_refl eq_refl eq_refl eq_refl) as [_ Hdust].
    destruct (Hdust eq_refl eq_refl) as (w' & Hrun & _).
    exists w'. exact Hrun.
Defined.

(** Transaction 101 is in the store already and is not accepted; the one
    without signature operations is accepted and not connected. *)
Lemma validator_errors_are_reported_witness :
  (exists w',
     run Demo.calm Demo.tx1 Demo.max_money
       (Demo.transaction_organizer Demo.holding_tx1 ∅ Demo.priced_policy)
     = Some (other_error 6, w'))
  /\ (exists w',
        run Demo.calm Demo.tx_no_sigops Demo.max_money
          (Demo.transaction_organizer (Demo.sound 0) ∅ Demo.priced_policy)
        = Some (other_error 7, w')
        /\ fast_chain_ w' = Demo.sound 0).
Proof.
  split.
  - pose proof (validator_errors_are_reported Demo.calm Demo.tx1
                  Demo.max_money
                  (Demo.transaction_organizer Demo.holding_tx1 ∅
                     Demo.priced_policy)) as H.
    destruct (H eq_refl eq_refl eq_refl eq_refl) as [Hacc _].
    destruct (Hacc eq_refl) as (w' & Hrun & _). exists w'. exact Hrun.
  - pose proof (validator_errors_are_reported Demo.calm Demo.tx_no_sigops
                  Demo.max_money
                  (Demo.transaction_organizer (Demo.sound 0) ∅
                     Demo.priced_policy)) as H.
    destruct (H eq_refl eq_refl eq_refl eq_refl) as [_ Hcon].
    destruct (Hcon eq_refl eq_refl eq_refl eq_refl eq_refl)
      as (w' & Hrun & _ & Hc).
    exists w'. split; [exact Hrun | exact Hc].
Defined.

Lemma success_means_stored_witness :
  exists w',
    run Demo.calm Demo.tx1 Demo.max_money
      (Demo.transaction_organizer (Demo.sound 0) ∅ Demo.priced_policy)
    = Some (success, w')
    /\ store (Demo.sound 0) Demo.tx1 = (success, fast_chain_ w').
Proof.
  destruct (run Demo.calm Demo.tx1 Demo.max_money
              (Demo.transaction_organizer (Demo.sound 0) ∅
                 Demo.priced_policy)) as [[c w']|] eqn:Hrun;
    [|vm_compute in Hrun; discriminate Hrun].
  assert (Hc : c = success) by (vm_compute in Hrun; congruence).
  subst c. exists w'. split; [reflexivity|].
  apply (success_means_stored _ _ _ _ _ Hrun).
Defined.

Lemma promise_carries_the_code_witness :
  exists w',
    run Demo.calm Demo.tx_unpaid Demo.max_money
      (Demo.transaction_organizer (Demo.sound 0) ∅ Demo.priced_policy)
    = Some (insufficient_fee, w')
    /\ resume_ w' = Some insufficient_fee.
Proof.
  destruct (run Demo.calm Demo.tx_unpaid Demo.max_money
              (Demo.transaction_organizer (Demo.sound 0) ∅
                 Demo.priced_policy)) as [[c w']|] eqn:Hrun;
    [|vm_compute in Hrun; discriminate Hrun].
  assert (Hc : c = insufficient_fee) by (vm_compute in Hrun; congruence).
  subst c. exists w'. split; [reflexivity|].
  destruct (promise_carries_the_code _ _ _ _ _ _ Hrun) as [Hset _].
  apply Hset. vm_compute in Hrun. injection Hrun as <-. reflexivity.
Defined.

Lemma tx_accesses_inside_critical_section_witness :
  exists c w',
    run Demo.calm Demo.tx1 Demo.max_money
      (Demo.transaction_organizer (Demo.sound 0) ∅ Demo.priced_policy)
    = Some (c, w')
    /\ inside_critical_section false
         (since (Demo.transaction_organizer (Demo.sound 0) ∅
                   Demo.priced_policy) w') = true.
Proof.
  destruct (run Demo.calm Demo.tx1 Demo.max_money
              (Demo.transaction_organizer (Demo.sound 0) ∅
                 Demo.priced_policy)) as [[c w']|] eqn:Hrun;
    [|vm_compute in Hrun; discriminate Hrun].
  exists c, w'. split; [reflexivity|].
  apply (tx_accesses_inside_critical_section _ _ _ _ _ _ Hrun).
Defined.

(** A store that fails its write: one [store] call, logged as fatal. *)
Lemma store_follows_connect_witness :
  exists c w',
    run Demo.calm Demo.tx1 Demo.max_money
      (Demo.transaction_organizer (Demo.failing 0) ∅ Demo.priced_policy)
    = Some (c, w')
    /\ stages_in_order false false
         (since (Demo.transaction_organizer (Demo.failing 0) ∅
                   Demo.priced_policy) w') = true
    /\ existsb is_log_fatal
         (since (Demo.transaction_organizer (Demo.failing 0) ∅
                   Demo.priced_policy) w') =
       existsb is_store
         (since (Demo.transaction_organizer (Demo.failing 0) ∅
                   Demo.priced_policy) w') && is_error c.
Proof.
  destruct (run Demo.calm Demo.tx1 Demo.max_money
              (Demo.transaction_organizer (Demo.failing 0) ∅
                 Demo.priced_policy)) as [[c w']|] eqn:Hrun;
    [|vm_compute in Hrun; discriminate Hrun].
  exists c, w'. split; [reflexivity|].
  pose proof (store_follows_connect _ _ _ _ _ _ Hrun) as (_ & Ho & _ & Hf).
  exact (conj Ho Hf).
Defined.

End TransactionFacts.

(** ** Both organizers *)

Section Organizers.

Context {chain pool : Type} `{!FastChain chain, !HeaderValidator chain,
  !BranchBuilder chain, !TransactionValidator chain, !TransactionPool pool}.

(** C9. An input that fails the context-free check is reported at once:
    the handler is called with the code of the check in the state the call
    started in, to which only the check has been logged.  The mutex is not
    taken, the stopped flag is not read (the result is the same whether the
    organizer is stopped or not) and neither the pool nor the store is
    consulted. *)
Theorem check_failure_reported_first :
  (forall (sched : HeaderOrganizer.schedule) (hdr : header)
          (w : HeaderOrganizer.state chain),
     is_error (header_check hdr) = true ->
     HeaderOrganizer.run sched hdr w =
       (header_check hdr, HeaderOrganizer.emit (HeaderOrganizer.ev_check hdr) w)
     /\ forall R (handler : HeaderOrganizer.result_handler R),
          HeaderOrganizer.organize sched hdr handler w =
          handler (header_check hdr)
            (HeaderOrganizer.emit (HeaderOrganizer.ev_check hdr) w))
  /\ (forall (sched : OrganizeTransaction.schedule) (tx : transaction)
            (max_money : N) (w : OrganizeTransaction.state chain pool),
       is_error (tx_check tx max_money) = true ->
       OrganizeTransaction.run sched tx max_money w =
         Some (tx_check tx max_money,
               OrganizeTransaction.emit
                 (OrganizeTransaction.ev_check tx max_money) w)
       /\ forall R (handler : OrganizeTransaction.result_handler R),
            OrganizeTransaction.organize sched tx handler max_money w =
            handler (tx_check tx max_money)
              (OrganizeTransaction.emit
                 (OrganizeTransaction.ev_check tx max_money) w)).
Proof.
  split.
  - intros sched hdr w Hc. split.
    + apply HeaderFacts.run_check_failure. exact Hc.
    + intros R handler. rewrite HeaderFacts.organize_run.
      rewrite (HeaderFacts.run_check_failure sched hdr w Hc). reflexivity.
  - intros sched tx max_money w Hc. split.
    + apply TransactionFacts.tx_run_check_failure. exact Hc.
    + intros R handler. rewrite TransactionFacts.tx_organize_run.
      rewrite (TransactionFacts.tx_run_check_failure sched tx max_money w Hc).
      reflexivity.
Qed.

(** C10. [handle_accept] of either organizer tests the stopped flag before
    it looks at the validator's code: when the organizer is stopped the
    handler is called with [service_stopped] in the unchanged state,
    whatever the code is.  In a pipeline this is what the caller's handler
    receives when the organizer is stopped by the time acceptance completes. *)
Theorem stopped_tested_before_code :
  (forall R (ec : code) (b : header_branch)
          (handler : HeaderOrganizer.result_handler R)
          (w : HeaderOrganizer.state chain),
     HeaderOrganizer.stopped w = true ->
     HeaderOrganizer.handle_accept ec b handler w = handler service_stopped w)
  /\ (forall R (sched : OrganizeTransaction.schedule) (ec : code)
            (tx : transaction) (handler : OrganizeTransaction.result_handler R)
            (w : OrganizeTransaction.state chain pool),
       OrganizeTransaction.stopped w = true ->
       OrganizeTransaction.handle_accept sched ec tx handler w =
       handler service_stopped w)
  /\ (forall (sched : HeaderOrganizer.schedule) (hdr : header)
            (w : HeaderOrganizer.state chain),
       header_check hdr = success ->
       empty (get_branch (HeaderOrganizer.pool_ w)
                (HeaderOrganizer.fast_chain_ w) hdr) = false ->
       HeaderOrganizer.stopped_at_accept sched w = true ->
       (HeaderOrganizer.run sched hdr w).1 = service_stopped)
  /\ (forall (sched : OrganizeTransaction.schedule) (tx : transaction)
            (max_money : N) (w : OrganizeTransaction.state chain pool),
       tx_check tx max_money = success ->
       OrganizeTransaction.stopped_at_entry sched w = false ->
       transaction_pool_exists (OrganizeTransaction.pool_ w) tx = false ->
       OrganizeTransaction.stopped_at_accept sched w = true ->
       exists w', OrganizeTransaction.run sched tx max_money w =
                  Some (service_stopped, w')).
Proof.
  split; [|split; [|split]].
  - intros R ec b handler w Hs. apply HeaderFacts.handle_accept_stopped.
    exact Hs.
  - intros R sched ec tx handler w Hs.
    apply TransactionFacts.tx_handle_accept_stopped. exact Hs.
  - intros sched hdr w Hc He Hs.
    rewrite (HeaderFacts.run_nonempty sched hdr _ w Hc eq_refl He).
    rewrite HeaderFacts.handle_accept_stopped by exact Hs. reflexivity.
  - intros sched tx max_money w Hc He Hp Hs.
    destruct (TransactionFacts.run_stopped_at_accept sched tx max_money w
                Hc He Hp Hs) as (w' & Hrun & _).
    exists w'. exact Hrun.
Qed.

(** C4. Every call of [organize] calls the caller's handler exactly once,
    with one code: for any handler the call is that handler applied to the
    code and the state of [run].  Before that call no handler call is
    logged and the mutex, if it was locked, has been unlocked; with the
    logging handler the log of the call holds one handler call, made while
    the mutex is not held.  The transaction organizer is shown to return
    where the cast of its fee policy is defined. *)
Theorem handler_called_once_after_unlock :
  (forall (sched : HeaderOrganizer.schedule) (hdr : header)
          (w : HeaderOrganizer.state chain),
     (forall R (handler : HeaderOrganizer.result_handler R),
        HeaderOrganizer.organize sched hdr handler w =
        handler (HeaderOrganizer.run sched hdr w).1
          (HeaderOrganizer.run sched hdr w).2)
     /\ HeaderOrganizer.handler_calls
          (HeaderOrganizer.since w (HeaderOrganizer.run sched hdr w).2) = 0%nat
     /\ HeaderOrganizer.holds_mutex false
          (HeaderOrganizer.since w (HeaderOrganizer.run sched hdr w).2) = false
     /\ (existsb HeaderOrganizer.is_lock
           (HeaderOrganizer.since w (HeaderOrganizer.run sched hdr w).2) = true ->
         HeaderOrganizer.mutex_ (HeaderOrganizer.run sched hdr w).2 = unlocked)
     /\ HeaderOrganizer.handler_calls
          (HeaderOrganizer.since w
             (HeaderOrganizer.organize sched hdr HeaderOrganizer.notify w))
        = 1%nat
     /\ HeaderOrganizer.handler_outside_lock false
          (HeaderOrganizer.since w
             (HeaderOrganizer.organize sched hdr HeaderOrganizer.notify w))
        = true)
  /\ (forall (sched : OrganizeTransaction.schedule) (tx : transaction)
            (max_money : N) (w : OrganizeTransaction.state chain pool),
       is_Some (OrganizeTransaction.sufficient_fee
                  (OrganizeTransaction.settings_ w) tx) ->
       exists c w',
         OrganizeTransaction.run sched tx max_money w = Some (c, w')
         /\ (forall R (handler : OrganizeTransaction.result_handler R),
               OrganizeTransaction.organize sched tx handler max_money w =
               handler c w')
         /\ OrganizeTransaction.handler_calls
              (OrganizeTransaction.since w w') = 0%nat
         /\ OrganizeTransaction.holds_mutex false
              (OrganizeTransaction.since w w') = false
         /\ (existsb OrganizeTransaction.is_lock
               (OrganizeTransaction.since w w') = true ->
             OrganizeTransaction.mutex_ w' = unlocked)
         /\ exists w'',
              OrganizeTransaction.organize sched tx
                OrganizeTransaction.notify max_money w = Some w''
              /\ OrganizeTransaction.handler_calls
                   (OrganizeTransaction.since w w'') = 1%nat
              /\ OrganizeTransaction.handler_outside_lock false
                   (OrganizeTransaction.since w w'') = true).
Proof.
  split.
  - intros sched hdr w.
    destruct (HeaderFacts.run_discipline sched hdr w) as (_ & Hn & Hm & Hu).
    destruct (HeaderFacts.organize_notify sched hdr w) as (_ & H1 & Ho & _).
    split; [|auto 6].
    intros R handler. apply HeaderFacts.organize_run.
  - intros sched tx max_money w Hfee.
    destruct (TransactionFacts.run_returns sched tx max_money w Hfee)
      as [[c w'] Hrun].
    destruct (TransactionFacts.tx_run_discipline sched tx max_money w w' c Hrun)
      as (_ & Hn & Hm & Hu).
    destruct (TransactionFacts.tx_organize_notify sched tx max_money w w' c Hrun)
      as (Hnotify & H1 & Ho & _).
    exists c, w'. split; [exact Hrun|]. split.
    { intros R handler. rewrite TransactionFacts.tx_organize_run, Hrun.
      reflexivity. }
    split; [exact Hn|]. split; [exact Hm|]. split; [exact Hu|].
    eexists. split; [exact Hnotify|]. split; assumption.
Qed.



(** C5, as the code has it.  The transaction organizer reads the stopped
    flag after it has taken the mutex and, when stopped, unlocks and
    delivers [service_stopped] without consulting the pool, the validator or
    the store.  The continuations of both organizers ([handle_accept], and
    [handle_connect] of the transaction organizer) read it first and, when
    stopped, call the handler with [service_stopped] in the unchanged state.
    The header organizer has no test at entry: its first test is the one of
    [handle_accept], and a pipeline that finds the flag set there writes
    neither the store nor the pool. *)
Theorem stopped_continuations_yield_service_stopped :
  (forall (sched : OrganizeTransaction.schedule) (tx : transaction)
          (max_money : N) (w : OrganizeTransaction.state chain pool),
     tx_check tx max_money = success ->
     OrganizeTransaction.stopped_at_entry sched w = true ->
     exists w',
       OrganizeTransaction.run sched tx max_money w = Some (service_stopped, w')
       /\ OrganizeTransaction.since w w' =
            [OrganizeTransaction.ev_check tx max_money;
             OrganizeTransaction.ev_lock_low_priority;
             OrganizeTransaction.ev_unlock_low_priority]
       /\ OrganizeTransaction.fast_chain_ w' =
          OrganizeTransaction.fast_chain_ w)
  /\ (forall R (ec : code) (b : header_branch)
            (handler : HeaderOrganizer.result_handler R)
            (w : HeaderOrganizer.state chain),
       HeaderOrganizer.stopped w = true ->
       HeaderOrganizer.handle_accept ec b handler w =
       handler service_stopped w)
  /\ (forall R (sched : OrganizeTransaction.schedule) (ec : code)
            (tx : transaction) (handler : OrganizeTransaction.result_handler R)
            (w : OrganizeTransaction.state chain pool),
       OrganizeTransaction.stopped w = true ->
       OrganizeTransaction.handle_accept sched ec tx handler w =
       handler service_stopped w)
  /\ (forall R (ec : code) (tx : transaction)
            (handler : OrganizeTransaction.result_handler R)
            (w : OrganizeTransaction.state chain pool),
       OrganizeTransaction.stopped w = true ->
       OrganizeTransaction.handle_connect ec tx handler w =
       handler service_stopped w)
  /\ (forall (sched : HeaderOrganizer.schedule) (hdr : header)
            (w : HeaderOrganizer.state chain),
       HeaderOrganizer.stopped_at_accept sched w = true ->
       HeaderOrganizer.fast_chain_ (HeaderOrganizer.run sched hdr w).2 =
         HeaderOrganizer.fast_chain_ w
       /\ HeaderOrganizer.pool_ (HeaderOrganizer.run sched hdr w).2 =
          HeaderOrganizer.pool_ w
       /\ existsb HeaderOrganizer.is_reorganize
            (HeaderOrganizer.since w (HeaderOrganizer.run sched hdr w).2)
          = false
       /\ ((HeaderOrganizer.run sched hdr w).1 = header_check hdr
           \/ (HeaderOrganizer.run sched hdr w).1 = duplicate_block
           \/ (HeaderOrganizer.run sched hdr w).1 = service_stopped))
  /\ (forall (sched : OrganizeTransaction.schedule) (tx : transaction)
            (max_money : N) (w w' : OrganizeTransaction.state chain pool)
            (c : code),
       tx_check tx max_money = success ->
       OrganizeTransaction.stopped_at_entry sched w = false ->
       transaction_pool_exists (OrganizeTransaction.pool_ w) tx = false ->
       OrganizeTransaction.stopped_at_accept sched w = true
       \/ (tx_accept (OrganizeTransaction.fast_chain_ w) tx = success
           /\ OrganizeTransaction.sufficient_fee
                (OrganizeTransaction.settings_ w) tx = Some true
           /\ is_dusty tx
                (minimum_output_satoshis (OrganizeTransaction.settings_ w))
              = false
           /\ OrganizeTransaction.stopped_at_connect sched w = true) ->
       OrganizeTransaction.run sched tx max_money w = Some (c, w') ->
       c = service_stopped
       /\ OrganizeTransaction.fast_chain_ w' = OrganizeTransaction.fast_chain_ w
       /\ existsb OrganizeTransaction.is_store
            (OrganizeTransaction.since w w') = false).
Proof.
  split; [|split; [|split; [|split; [|split]]]].
  - intros sched tx max_money w Hc Hs.
    rewrite (TransactionFacts.run_stopped_at_entry sched tx max_money w Hc Hs).
    eexists. split; [reflexivity|]. split; [|reflexivity].
    apply TransactionFacts.tx_since_app. reflexivity.
  - intros R ec b handler w Hs. apply HeaderFacts.handle_accept_stopped.
    exact Hs.
  - intros R sched ec tx handler w Hs.
    apply TransactionFacts.tx_handle_accept_stopped. exact Hs.
  - intros R ec tx handler w Hs.
    apply TransactionFacts.handle_connect_stopped. exact Hs.
  - intros sched hdr w Hs. apply HeaderFacts.run_stopped. exact Hs.
  - intros sched tx max_money w w' c Hc He Hp Hs Hrun.
    exact (TransactionFacts.tx_run_stopped sched tx max_money w w' c
             Hc He Hp Hs Hrun).
Qed.

End Organizers.

(** ** Concrete runs *)

(** Header 14 and the overspent transaction fail their checks, offered to
    organizers that were constructed and never started. *)
Lemma check_failure_reported_first_witness :
  HeaderOrganizer.run Demo.quiet Demo.h14
    (HeaderOrganizer.construct (Demo.sound 0) ∅) =
    (other_error 3,
     HeaderOrganizer.emit (HeaderOrganizer.ev_check Demo.h14)
       (HeaderOrganizer.construct (Demo.sound 0) ∅))
  /\ OrganizeTransaction.run Demo.calm Demo.tx_overspent Demo.max_money
       (OrganizeTransaction.construct (Demo.sound 0) ∅ Demo.free_policy) =
     Some (other_error 5,
           OrganizeTransaction.emit
             (OrganizeTransaction.ev_check Demo.tx_overspent Demo.max_money)
             (OrganizeTransaction.construct (Demo.sound 0) ∅ Demo.free_policy)).
Proof.
  destruct (check_failure_reported_first (chain := Demo.ledger) (pool := gset N)) as [Hh Ht].
  split.
  - apply (Hh Demo.quiet Demo.h14
             (HeaderOrganizer.construct (Demo.sound 0) ∅) eq_refl).
  - apply (Ht Demo.calm Demo.tx_overspent Demo.max_money
             (OrganizeTransaction.construct (Demo.sound 0) ∅ Demo.free_policy)
             eq_refl).
Defined.

(** The accept continuations entered with a validator error after [stop]. *)
Lemma stopped_tested_before_code_witness :
  HeaderOrganizer.handle_accept (other_error 4)
    {| fork_point := {| cp_hash := 10; cp_height := 0 |};
       headers := [Demo.h13]; work := 5 |}
    (fun ec w => (ec, w))
    (HeaderOrganizer.stop (Demo.header_organizer (Demo.sound 0) ∅)) =
    (service_stopped,
     HeaderOrganizer.stop (Demo.header_organizer (Demo.sound 0) ∅))
  /\ OrganizeTransaction.handle_accept Demo.calm (other_error 6) Demo.tx1
       (fun ec w => Some (ec, w))
       (OrganizeTransaction.stop
          (Demo.transaction_organizer (Demo.sound 0) ∅ Demo.free_policy)) =
     Some (service_stopped,
           OrganizeTransaction.stop
             (Demo.transaction_organizer (Demo.sound 0) ∅ Demo.free_policy)).
Proof.
  destruct (stopped_tested_before_code (chain := Demo.ledger) (pool := gset N))
    as (Hh & Ht & _ & _).
  split.
  - apply (Hh _ (other_error 4) _ (fun ec w => (ec, w))). reflexivity.
  - apply (Ht _ Demo.calm (other_error 6) Demo.tx1
             (fun ec w => Some (ec, w))). reflexivity.
Defined.

(** A priced transaction organizer and a transaction that pays the price:
    the run returns and its handler call follows the unlock. *)
Lemma handler_called_once_after_unlock_witness :
  is_Some
    (OrganizeTransaction.run Demo.calm Demo.tx1 Demo.max_money
       (Demo.transaction_organizer (Demo.sound 0) ∅ Demo.priced_policy))
  /\ HeaderOrganizer.handler_calls
       (HeaderOrganizer.since (Demo.header_organizer (Demo.sound 0) ∅)
          (HeaderOrganizer.organize Demo.quiet Demo.h11
             HeaderOrganizer.notify (Demo.header_organizer (Demo.sound 0) ∅)))
     = 1%nat.
Proof.
  destruct (handler_called_once_after_unlock (chain := Demo.ledger) (pool := gset N))
    as [Hh Ht].
  split.
  - destruct (Ht Demo.calm Demo.tx1 Demo.max_money
                (Demo.transaction_organizer (Demo.sound 0) ∅
                   Demo.priced_policy)
                (ex_intro _ true eq_refl)) as (c & w' & Hrun & _).
    rewrite Hrun. exists (c, w'). reflexivity.
  - apply (Hh Demo.quiet Demo.h11 (Demo.header_organizer (Demo.sound 0) ∅)).
Defined.


(** A transaction organizer that was never started. *)
Lemma stopped_continuations_yield_service_stopped_witness :
  exists w',
    OrganizeTransaction.run Demo.calm Demo.tx1 Demo.max_money
      (OrganizeTransaction.construct (Demo.sound 0) ∅ Demo.priced_policy) =
    Some (service_stopped, w')
    /\ OrganizeTransaction.fast_chain_ w' = Demo.sound 0.
Proof.
  destruct (stopped_continuations_yield_service_stopped (chain := Demo.ledger) (pool := gset N))
    as (He & _).
  destruct (He Demo.calm Demo.tx1 Demo.max_money
              (OrganizeTransaction.construct (Demo.sound 0) ∅
                 Demo.priced_policy) eq_refl eq_refl)
    as (w' & Hrun & _ & Hc).
  exists w'. split; [exact Hrun | exact Hc].
Defined.

(** C5 as stated fails for the header organizer, which does not read the
    stopped flag at entry: constructed and never started, it answers a
    pooled header with [duplicate_block], and for a new header it builds
    the branch and calls the validator before [handle_accept] finds it
    stopped. *)
Lemma stopped_header_organizer_runs_to_accept :
  let w := HeaderOrganizer.construct (Demo.sound 0) {[ 11 := (Demo.h11, 1) ]} in
  HeaderOrganizer.stopped w = true
  /\ (HeaderOrganizer.run Demo.quiet Demo.h11 w).1 = duplicate_block
  /\ (HeaderOrganizer.run Demo.quiet Demo.h11 w).1 <> service_stopped
  /\ HeaderOrganizer.since w (HeaderOrganizer.run Demo.quiet Demo.h12 w).2 =
       [HeaderOrganizer.ev_check Demo.h12;
        HeaderOrganizer.ev_lock_high_priority;
        HeaderOrganizer.ev_get_branch Demo.h12;
        HeaderOrganizer.ev_accept
          {| fork_point := {| cp_hash := 10; cp_height := 0 |};
             headers := [Demo.h11; Demo.h12]; work := 12 |};
        HeaderOrganizer.ev_unlock_high_priority].
Proof.
  cbv zeta. split; [reflexivity|]. split; [reflexivity|].
  split; [discriminate|]. vm_compute. reflexivity.
Qed.

(** C6 fails on the code: [handle_connect] stores the transaction and
    leaves the pool alone (its TODO).  [tx1] is admitted with [success];
    the pool is still empty, [exists] is still false for it, and a second
    call goes past the duplicate test to the validator. *)
Theorem admitted_transaction_is_not_pooled :
  let w := Demo.transaction_organizer (Demo.sound 0) ∅ Demo.priced_policy in
  exists w1,
    OrganizeTransaction.run Demo.calm Demo.tx1 Demo.max_money w =
      Some (success, w1)
    /\ OrganizeTransaction.pool_ w1 = ∅
    /\ transaction_pool_exists (OrganizeTransaction.pool_ w1) Demo.tx1 = false
    /\ exists c2 w2,
         OrganizeTransaction.run Demo.calm Demo.tx1 Demo.max_money w1 =
           Some (c2, w2)
         /\ c2 <> duplicate_transaction
         /\ existsb OrganizeTransaction.is_accept
              (OrganizeTransaction.since w1 w2) = true.
Proof.
  cbv zeta. eexists. split; [vm_compute; reflexivity|].
  split; [reflexivity|]. split; [reflexivity|].
  eexists _, _. split; [vm_compute; reflexivity|].
  split; [discriminate|reflexivity].
Qed.
